(** * ember-validations: the validation mixin and the focus-tracking widgets

    A shallow embedding of [packages/ember-validations/lib/validations.js]
    (the [Ember.Validations] mixin) and of the control-view extension that
    derives the [shouldValidate] flag, followed by the properties of the
    specification that concern them.

    Conventions.
    - A JavaScript object used as a hash is an association list in [for..in]
      enumeration order; a property bag read and written by computed key is a
      [gmap string jsval].
    - Methods that mutate [this] are computations in a small state / exception
      / output monad [M]: the state is the validated object, the exception is
      a JavaScript [throw], the output is the sequence of notifications and
      Error Collection mutations performed.
    - The hashes of [validations] are plain object literals: they have no
      inherited enumerable property, and their keys are distinct.
    - Attribute names are taken to be distinct from the mixin's own members
      ([validations], [validationErrors], [isValid], ...), which are record
      fields here, and to hold no dot, so that [this.get(name)] is a plain
      property read.
    - The control views, their bindings and the objects they reach are
      property bags in a store indexed by address; the global object is at
      address [Widget.window]. *)

From Stdlib Require Import Ascii String.
From stdpp Require Import gmap strings list fin_maps pretty.

Open Scope string_scope.
Open Scope list_scope.

(** ** JavaScript values and coercions *)

Inductive jsval :=
  | JUndefined
  | JNull
  | JBool (b : bool)
  | JNum (n : Z)
  | JStr (s : string)
  | JRef (l : nat).

(** [a === b]: on these values strict equality is equality. *)
#[global] Instance jsval_eq_dec : EqDecision jsval.
Proof. solve_decision. Defined.

(** ToBoolean *)
Definition truthy (v : jsval) : bool :=
  match v with
  | JUndefined | JNull => false
  | JBool b => b
  | JNum n => negb (n =? 0)%Z
  | JStr s => negb (String.eqb s EmptyString)
  | JRef _ => true
  end.

(** ToString, as applied by [+] to a non-string operand *)
Definition js_to_string (v : jsval) : string :=
  match v with
  | JUndefined => "undefined"
  | JNull => "null"
  | JBool true => "true"
  | JBool false => "false"
  | JNum n => pretty n
  | JStr s => s
  | JRef _ => "[object Object]"
  end.

(** [a || b] and [a && b] on values *)
Definition js_or (a b : jsval) : jsval := if truthy a then a else b.
Definition js_and (a b : jsval) : jsval := if truthy a then b else a.

(** Reading a property of a bag: an absent key reads as [undefined]. *)
Definition prop (o : gmap string jsval) (k : string) : jsval :=
  default JUndefined (o !! k).

(** ** Strings *)

Fixpoint string_drop (n : nat) (s : string) : string :=
  match n, s with
  | O, _ => s
  | S _, EmptyString => EmptyString
  | S n', String _ s' => string_drop n' s'
  end.

(** [s.replace(pat, rep)] with a string pattern: the first occurrence of
    [pat] in [s], scanning from the left, is replaced; [s] is returned
    unchanged when there is none. *)
Fixpoint replace (pat rep s : string) : string :=
  if String.prefix pat s then rep +:+ string_drop (String.length pat) s
  else match s with
       | EmptyString => EmptyString
       | String c s' => String c (replace pat rep s')
       end.

(** [s.indexOf(pat) !== -1] *)
Fixpoint contains (pat s : string) : bool :=
  String.prefix pat s ||
  match s with
  | EmptyString => false
  | String _ s' => contains pat s'
  end.

(** The last character of a string *)
Fixpoint string_last (s : string) : option ascii :=
  match s with
  | EmptyString => None
  | String c s' =>
      match s' with
      | EmptyString => Some c
      | String _ _ => string_last s'
      end
  end.

(** No proper non-empty suffix of [p] is a prefix of [p]: two occurrences of
    [p] in a string cannot overlap. *)
Definition border_free (p : string) : bool :=
  forallb (λ d, negb (String.prefix (string_drop d p) p))
          (seq 1 (String.length p - 1)).

(** [path.split('.')]: the segments between the dots; the empty string has
    the one empty segment. *)
Fixpoint split_path (path : string) : list string :=
  match path with
  | EmptyString => [EmptyString]
  | String c path' =>
      if Ascii.eqb c "."%char then EmptyString :: split_path path'
      else match split_path path' with
           | [] => [String c EmptyString]
           | segment :: segments => String c segment :: segments
           end
  end.




Fixpoint dot_free (s : string) : bool :=
  match s with
  | EmptyString => true
  | String c s' => negb (Ascii.eqb c "."%char) && dot_free s'
  end.

(** ** The Error Collection *)

Module ValidationErrors.

(** Modelled from the spec: the Error Collection class
    ([Ember.ValidationErrors], created by [init] and used through [add],
    [remove], [clear], [length] and the per-attribute sequences), whose
    source file is not available.  "Mapping from attribute name to an
    ordered sequence of message strings." *)
Abbreviation t := (gmap string (list string)).

Definition create : t := ∅.

(** Modelled from the spec: the per-attribute sequence; an absent key has
    no recorded errors. *)
Definition messages (attribute : string) (e : t) : list string :=
  default [] (e !! attribute).

(** Modelled from the spec: "appends [message] to the ordered sequence for
    [attribute], creating the sequence if absent". *)
Definition add (attribute message : string) (e : t) : t :=
  <[attribute := messages attribute e ++ [message]]> e.

(** Modelled from the spec: "clears only [attribute]'s sequence". *)
Definition remove (attribute : string) (e : t) : t := delete attribute e.

(** Modelled from the spec: "empties all attributes' sequences". *)
Definition clear (e : t) : t := ∅.

(** Modelled from the spec: "total count of messages across all
    attributes". *)
Definition length (e : t) : nat :=
  map_fold (λ _ msgs n, List.length msgs + n) 0 e.

End ValidationErrors.

(** ** Computations on a mutable receiver *)

Inductive error :=
  | TypeError                          (* a property read on [undefined] *)
  | NoValidatorFound (name : string)   (* raised by the validator registry *)
  | PathNotFound (path : string).      (* raised by [Ember.set] *)

(** What a run makes visible: the property-change notifications sent and the
    mutations applied to the Error Collection, in program order. *)
Inductive event :=
  | PropertyWillChange (key : string)
  | PropertyDidChange (key : string)
  | ErrorsCleared
  | ErrorsRemoved (attribute : string)
  | ErrorsAdded (attribute message : string).

Record res (S A : Type) := Res {
  out : error + A;
  post : S;
  emitted : list event
}.
Arguments Res {S A} _ _ _.
Arguments out {S A} _.
Arguments post {S A} _.
Arguments emitted {S A} _.

Definition M (S A : Type) : Type := S → res S A.

#[global] Instance M_ret {S} : MRet (M S) :=
  λ A a s, Res (inr a) s [].

#[global] Instance M_bind {S} : MBind (M S) :=
  λ A B f m s,
    let r := m s in
    match out r with
    | inl e => Res (inl e) (post r) (emitted r)
    | inr a => let r' := f a (post r) in
               Res (out r') (post r') (emitted r ++ emitted r')
    end.

Definition get_this {S} : M S S := λ s, Res (inr s) s [].
Definition modify {S} (f : S → S) : M S unit := λ s, Res (inr tt) (f s) [].
Definition emit {S} (e : event) : M S unit := λ s, Res (inr tt) s [e].
Definition throw {S A} (e : error) : M S A := λ s, Res (inl e) s [].

(** [for (x in xs) body(x)], over the enumeration [xs]; a [throw] in the body
    leaves the loop. *)
Fixpoint for_in {S A} (xs : list A) (body : A → M S unit) : M S unit :=
  match xs with
  | [] => mret tt
  | x :: xs' => body x ;; for_in xs' body
  end.

(** [h[key]] on a hash given in enumeration order *)
Fixpoint hash_get {V} (h : list (string * V)) (key : string) : option V :=
  match h with
  | [] => None
  | (k, v) :: h' => if String.eqb k key then Some v else hash_get h' key
  end.

(** ** The validated object *)

(** The two observer methods the mixin registers by name. *)
Inductive handler :=
  | ValueChange   (* '_onValueChangeValidateAttribute' *)
  | FocusOut.     (* '_onFocusOutValidateAttribute' *)

#[global] Instance handler_eq_dec : EqDecision handler.
Proof. solve_decision. Defined.

Record Obj (options : Type) := mkObj {
  (** [validations]: attribute name -> rule name -> rule options; [None] when
      the property was never set *)
  validations : option (list (string * list (string * options)));
  validationErrors : ValidationErrors.t;
  (** the two configuration flags and the "validated once" mark, each read
      by the mixin for its truthiness only *)
  validateOnValueChange : bool;
  validateOnFocusOut : bool;
  _didValidateAllOnce : bool;
  (** every other property of the object: attribute values, the
      [<attribute>shouldValidate] flags and the [_observer...] handles *)
  props : gmap string jsval;
  (** the observers registered on this object, oldest first *)
  observers : list (string * handler)
}.
Arguments mkObj {options} _ _ _ _ _ _ _.
Arguments validations {options} _.
Arguments validationErrors {options} _.
Arguments validateOnValueChange {options} _.
Arguments validateOnFocusOut {options} _.
Arguments _didValidateAllOnce {options} _.
Arguments props {options} _.
Arguments observers {options} _.

(** A validator's [validate(object, attribute, value)]: reads the object and
    performs a sequence of [validationErrors.add(key, message)] calls. *)
Definition validator (options : Type) : Type :=
  Obj options → string → jsval → list (string * string).

(** [Ember.Validators.getValidator(name, options)], whose source file is not
    available, is a parameter of the engine: [None] stands for its "no
    validator found" failure. *)
Definition registry (options : Type) : Type :=
  string → options → option (validator options).

Section Engine.
Context {options : Type}.
Variable getValidator : registry options.

Local Abbreviation Obj := (Obj options).

(** *** Field assignments *)

Definition set_validations (v : option (list (string * list (string * options))))
    (o : Obj) : Obj :=
  mkObj v (validationErrors o) (validateOnValueChange o) (validateOnFocusOut o)
        (_didValidateAllOnce o) (props o) (observers o).

Definition set_validationErrors (e : ValidationErrors.t) (o : Obj) : Obj :=
  mkObj (validations o) e (validateOnValueChange o) (validateOnFocusOut o)
        (_didValidateAllOnce o) (props o) (observers o).

Definition set_flags (onValueChange onFocusOut : bool) (o : Obj) : Obj :=
  mkObj (validations o) (validationErrors o) onValueChange onFocusOut
        (_didValidateAllOnce o) (props o) (observers o).

Definition set_didValidateAllOnce (b : bool) (o : Obj) : Obj :=
  mkObj (validations o) (validationErrors o) (validateOnValueChange o)
        (validateOnFocusOut o) b (props o) (observers o).

(** [this[key] = v] *)
Definition set_prop (key : string) (v : jsval) (o : Obj) : Obj :=
  mkObj (validations o) (validationErrors o) (validateOnValueChange o)
        (validateOnFocusOut o) (_didValidateAllOnce o) (<[key := v]> (props o))
        (observers o).

Definition push_observer (key : string) (h : handler) (o : Obj) : Obj :=
  mkObj (validations o) (validationErrors o) (validateOnValueChange o)
        (validateOnFocusOut o) (_didValidateAllOnce o) (props o)
        (observers o ++ [(key, h)]).

(** *** The host framework, as far as the mixin uses it *)

(** [this.propertyWillChange(key)] / [this.propertyDidChange(key)]: the two
    notifications that tell the dependents of [key] that it is about to
    change and that it has changed. *)
Definition propertyWillChange (key : string) : M Obj unit :=
  emit (PropertyWillChange key).
Definition propertyDidChange (key : string) : M Obj unit :=
  emit (PropertyDidChange key).

(** The object [Ember.addObserver] returns: it ends in [return this] and is
    called as a method of the [Ember] namespace. *)
Definition Ember_namespace : jsval := JRef 0.

(** [Ember.addObserver(this, key, this, method)] *)
Definition addObserver (key : string) (method : handler) : M Obj jsval :=
  modify (push_observer key method) ;; mret Ember_namespace.

(** *** The Error Collection of [this] *)

Definition errors_clear : M Obj unit :=
  modify (λ o, set_validationErrors (ValidationErrors.clear (validationErrors o)) o) ;;
  emit ErrorsCleared.

Definition errors_remove (attribute : string) : M Obj unit :=
  modify (λ o, set_validationErrors
                 (ValidationErrors.remove attribute (validationErrors o)) o) ;;
  emit (ErrorsRemoved attribute).

Definition errors_add (attribute message : string) : M Obj unit :=
  modify (λ o, set_validationErrors
                 (ValidationErrors.add attribute message (validationErrors o)) o) ;;
  emit (ErrorsAdded attribute message).

(** [get(this, 'validationErrors.' + attribute + '.length')]: [undefined]
    when the collection has no sequence under [attribute]. *)
Definition errors_length_of (attribute : string) (o : Obj) : jsval :=
  match validationErrors o !! attribute with
  | None => JUndefined
  | Some msgs => JNum (Z.of_nat (length msgs))
  end.

(** [validator.validate(this, attribute, value)] *)
Definition run_validator (v : validator options) (attribute : string)
    (value : jsval) : M Obj unit :=
  this ← get_this;
  for_in (v this attribute value) (λ km, errors_add km.1 km.2).

Definition resolve_validator (validationName : string) (opts : options)
    : M Obj (validator options) :=
  match getValidator validationName opts with
  | Some v => mret v
  | None => throw (NoValidatorFound validationName)
  end.

(** *** The mixin *)

(** [isValid]: a computed property over ['validationErrors.length'], read
    here at its dependency's current value. *)
Definition isValid (o : Obj) : bool :=
  Nat.eqb (ValidationErrors.length (validationErrors o)) 0.

(** The own enumerable keys of [validations]; [for..in] over [undefined]
    runs no iteration. *)
Definition validations_keys (o : Obj) : list string :=
  match validations o with
  | None => []
  | Some v => v.*1
  end.

(** The body of the loop over [attributeValidations] in
    [_validateProperty]: one rule, given as its name and its options. *)
Definition apply_rule (attribute : string) (rule : string * options)
    : M Obj unit :=
  let validationName := rule.1 in
  let options := rule.2 in
  validator ← resolve_validator validationName options;
  this ← get_this;
  run_validator validator attribute (prop (props this) attribute).

Definition _validateProperty (attribute : string) : M Obj bool :=
  this ← get_this;
  let validations := validations this in
  errors_remove attribute ;;
  (* validations[attribute] *)
  attributeValidations ←
    match validations with
    | None => throw TypeError
    | Some v => mret (default [] (hash_get v attribute))
    end;
  for_in attributeValidations (apply_rule attribute) ;;
  this ← get_this;
  let isValid := negb (truthy (errors_length_of attribute this)) in
  mret isValid.

Definition validate : M Obj bool :=
  modify (set_didValidateAllOnce true) ;;
  this ← get_this;
  let validations := validations_keys this in
  propertyWillChange "validationErrors" ;;
  errors_clear ;;
  for_in validations (λ attribute,
      _validateProperty attribute ;; mret tt) ;;
  propertyDidChange "validationErrors" ;;
  this ← get_this;
  mret (isValid this).

Definition validateProperty (attribute : string) : M Obj bool :=
  propertyWillChange "validationErrors" ;;
  isValid ← _validateProperty attribute;
  propertyDidChange "validationErrors" ;;
  mret isValid.

(** The key the focus-out observer of [property] is registered on. *)
Definition shouldValidate_key (property : string) : string :=
  property +:+ "shouldValidate".

Definition _onValueChangeValidateAttribute (property : string) : M Obj unit :=
  let shouldValidatePath := property +:+ "shouldValidate" in
  this ← get_this;
  if truthy (prop (props this) shouldValidatePath) || _didValidateAllOnce this
  then validateProperty property ;; mret tt
  else mret tt.

Definition _onFocusOutValidateAttribute (shouldValidatePath : string)
    : M Obj unit :=
  let property := replace "shouldValidate" EmptyString shouldValidatePath in
  this ← get_this;
  if truthy (prop (props this) shouldValidatePath) || _didValidateAllOnce this
  then validateProperty property ;; mret tt
  else mret tt.

Definition _setupAutoValidateObserves : M Obj unit :=
  this ← get_this;
  let validateOnValueChange := validateOnValueChange this in
  let validateOnFocusOut := validateOnFocusOut this in
  for_in (validations_keys this) (λ property,
    (if validateOnValueChange then
       let observerKey := "_observer" +:+ property +:+ "_value_change" in
       this ← get_this;
       if negb (truthy (prop (props this) observerKey)) then
         h ← addObserver property ValueChange;
         modify (set_prop observerKey h)
       else mret tt
     else mret tt) ;;
    (if validateOnFocusOut then
       let key := shouldValidate_key property in
       let observerKey := "_observer" +:+ property +:+ "_focus_out" in
       this ← get_this;
       if negb (truthy (prop (props this) observerKey)) then
         h ← addObserver key FocusOut;
         modify (set_prop observerKey h)
       else mret tt
     else mret tt)).

(** *** Observer dispatch *)

Definition call_handler (method : handler) (key : string) : M Obj unit :=
  match method with
  | ValueChange => _onValueChangeValidateAttribute key
  | FocusOut => _onFocusOutValidateAttribute key
  end.

(** The observers of [key] run, in registration order, with [(this, key)]. *)
Definition notify (key : string) : M Obj unit :=
  this ← get_this;
  for_in (filter (λ ob, ob.1 = key) (observers this))
         (λ ob, call_handler ob.2 ob.1).

(** The members the mixin gives the object: they are the fields of [Obj]
    and the methods of this section, not entries of [props]. *)
Definition mixin_members : list string :=
  ["init"; "_setupAutoValidateObserves"; "_onValueChangeValidateAttribute";
   "_onFocusOutValidateAttribute"; "validate"; "validateProperty";
   "_validateProperty"; "isValid"; "validations"; "validationErrors";
   "validateOnValueChange"; "validateOnFocusOut"; "_didValidateAllOnce"].

Definition mixin_member (key : string) : bool :=
  bool_decide (key ∈ mixin_members).

(** [this.set(key, value)] for a key that is not a member of the mixin (the
    write of [validations] is [assign_validations] below).  A key that is
    not observed is simply written.  On an observed key a value equal to the
    current one changes nothing and runs nothing; another value is written
    and the observers of [key] run. *)
Definition Ember_set (key : string) (Hkey : mixin_member key = false)
    (value : jsval) : M Obj unit :=
  this ← get_this;
  if bool_decide (filter (λ ob, ob.1 = key) (observers this) ≠ [])
  then if decide (value = prop (props this) key) then mret tt
       else modify (set_prop key value) ;; notify key
  else modify (set_prop key value).

(** [this.set('validations', v)]: the write, then
    [_setupAutoValidateObserves], which [.observes('validations')]. *)
Definition assign_validations
    (v : option (list (string * list (string * options)))) : M Obj unit :=
  modify (set_validations v) ;; _setupAutoValidateObserves.

(** [init], on an object built from the properties given to [create]: the
    Error Collection is created when none was given, then the observers are
    wired. *)
Definition create (v : option (list (string * list (string * options))))
    (onValueChange onFocusOut : bool) (attrs : gmap string jsval) : Obj :=
  mkObj v ValidationErrors.create onValueChange onFocusOut false attrs [].

Definition init : M Obj unit := _setupAutoValidateObserves.

End Engine.

(** ** The control views

    [Ember.TextField], [Ember.TextArea], [Ember.Select] and [Ember.Checkbox]
    are reopened with the same three members.  A view, its binding objects and
    the objects its bindings lead to live in one store of property bags;
    [JRef l] is the bag at address [l]. *)

Module Widget.

Abbreviation heap := (gmap nat (gmap string jsval)).

(** [o[key]]; a property read on a value that is no stored object gives
    [undefined] *)
Definition get_key (h : heap) (o : jsval) (key : string) : jsval :=
  match o with
  | JRef l => match h !! l with
              | Some bag => prop bag key
              | None => JUndefined
              end
  | _ => JUndefined
  end.

Definition get_path (h : heap) (root : jsval) (segments : list string) : jsval :=
  foldl (get_key h) root segments.

(** [Ember.get(root, path)]: a dotted path is followed segment by segment. *)
Definition Ember_get (h : heap) (root : jsval) (path : string) : jsval :=
  get_path h root (split_path path).

(** [Ember.set(root, path, value)]: the path up to its last segment is
    resolved from [root] and the last segment is written on the object
    found; it throws when there is no such object.  This is the write
    alone: what observers other code has registered on the written key do is
    outside this store. *)
Definition Ember_set (root : jsval) (path : string) (value : jsval)
    : M heap unit :=
  h ← get_this;
  let segments := split_path path in
  let key := List.last segments EmptyString in
  match get_path h root (removelast segments) with
  | JRef l =>
      match h !! l with
      | Some bag => modify (<[l := <[key := value]> bag]>)
      | None => throw (PathNotFound path)
      end
  | _ => throw (PathNotFound path)
  end.




(** A binding's source path [a.b.c] from its segments *)
Definition join_path (segments : list string) : string :=
  String.concat "." segments.

Definition _setupShouldValidate (this : nat) : M heap unit :=
  h ← get_this;
  if negb (truthy (Ember_get h (JRef this) "_didFocusIn"))
     || negb (truthy (Ember_get h (JRef this) "_didFocusOut"))
  then mret tt
  else
    let controller := Ember_get h (JRef this) "controller" in
    let binding := js_or (get_key h (JRef this) "valueBinding")
                         (get_key h (JRef this) "checkedBinding") in
    let property := js_and binding (get_key h binding "_from") in
    Ember_set (JRef this) (js_to_string property +:+ "shouldValidate")
              (JBool true).

(** [this.set(flag, true)] on the view, for one of the two flags
    [_setupShouldValidate] [.observes]: writing [true] over [true] changes
    nothing and runs nothing; otherwise the flag is written and the
    observer runs. *)
Definition set_flag (this : nat) (flag : string) : M heap unit :=
  h ← get_this;
  if decide (JBool true = Ember_get h (JRef this) flag) then mret tt
  else Ember_set (JRef this) flag (JBool true) ;; _setupShouldValidate this.

(** [this._super()]: the handler the reopened class inherits belongs to the
    host framework.  It is given by its outcome, [None] when it returns and
    [Some e] when the call throws [e], and is taken to leave the store as it
    is. *)
Definition _super (inherited : option error) : M heap unit :=
  match inherited with
  | None => mret tt
  | Some e => throw e
  end.

Definition focusIn (inherited : option error) (this : nat) : M heap unit :=
  set_flag this "_didFocusIn" ;;
  _super inherited.

Definition focusOut (this : nat) : M heap unit :=
  set_flag this "_didFocusOut".

End Widget.

(** ** Sample objects *)

Module Sample.

(** A presence rule, in the manner of the one the mixin's documentation
    uses: a falsy value is reported on the attribute validated. *)
Definition presence : validator jsval :=
  λ _ attribute value,
    if truthy value then [] else [(attribute, "is required")].

Definition getValidator : registry jsval :=
  λ name _, if String.eqb name "presence" then Some presence else None.

(** [Ember.Object.create(Ember.Validations, {validations: {name: {presence: true}},
    validateOnValueChange: true, validateOnFocusOut: true})] before [init] *)
Definition person : Obj jsval :=
  create (Some [("name", [("presence", JBool true)])]) true true ∅.

(** An object whose one validated attribute has a name that begins with the
    flag suffix; its focus-out flag has been set. *)
Definition marked : Obj jsval :=
  set_prop (shouldValidate_key "shouldValidateX") (JBool true)
    (create (Some [("shouldValidateX", [("presence", JBool true)])])
            false true ∅).

(** An object that validates both [x] and an attribute named as [x]'s
    focus-out flag. *)
Definition overlapping : Obj jsval :=
  create (Some [("x", []); ("xshouldValidate", [])]) true true ∅.

(** A text field (at address 1) whose [value] is bound to
    [controller.name]: its binding object is at address 2 and its controller,
    the validated object, at address 3.  The field has not been focused. *)
Definition form : Widget.heap :=
  {[ 1 := {[ "valueBinding" := JRef 2; "controller" := JRef 3 ]};
     2 := {[ "_from" := JStr "controller.name" ]};
     3 := {[ "name" := JUndefined ]} ]}.


End Sample.

(** ** Vocabulary of the statements *)

(** The effect of one logged event on an Error Collection; notifications
    leave it as it is. *)
Definition replay (e : ValidationErrors.t) (ev : event) : ValidationErrors.t :=
  match ev with
  | ErrorsCleared => ValidationErrors.clear e
  | ErrorsRemoved a => ValidationErrors.remove a e
  | ErrorsAdded a m => ValidationErrors.add a m e
  | PropertyWillChange _ | PropertyDidChange _ => e
  end.

Definition replay_all (evs : list event) (e : ValidationErrors.t)
    : ValidationErrors.t :=
  foldl replay e evs.

Definition is_notification (ev : event) : bool :=
  match ev with
  | PropertyWillChange _ | PropertyDidChange _ => true
  | _ => false
  end.

(** A mutation of the Error Collection that concerns [attribute] alone. *)
Definition only_touches (attribute : string) (ev : event) : Prop :=
  match ev with
  | ErrorsRemoved a | ErrorsAdded a _ => a = attribute
  | ErrorsCleared => False
  | PropertyWillChange _ | PropertyDidChange _ => True
  end.

Definition added (km : string * string) : event := ErrorsAdded km.1 km.2.

(** Every rule configured for [attribute] names a validator the registry
    knows, and [validations] is set. *)
Definition resolvable_at {options} (getValidator : registry options)
    (o : Obj options) (attribute : string) : Prop :=
  ∃ v, validations o = Some v ∧
       ∀ rule, rule ∈ default [] (hash_get v attribute) →
               is_Some (getValidator rule.1 rule.2).

Definition resolvable {options} (getValidator : registry options)
    (o : Obj options) : Prop :=
  ∀ attribute, attribute ∈ validations_keys o →
               resolvable_at getValidator o attribute.

(** The validator contract: a validator reports on the attribute it was
    called for. *)
Definition validator_contract {options} (getValidator : registry options)
    : Prop :=
  ∀ name opts v o attribute value km,
    getValidator name opts = Some v →
    km ∈ v o attribute value → km.1 = attribute.

(** The rules configured for [attribute]; none when it has no entry. *)
Definition rules_of {options} (o : Obj options) (attribute : string)
    : list (string * options) :=
  match validations o with
  | Some v => default [] (hash_get v attribute)
  | None => []
  end.

(** What "re-running the rules of [attribute]" reports, rule after rule:
    each validator is handed the object as the previous ones left it, and
    its reports join the Error Collection before the next one runs.  A rule
    that names no validator ends the run. *)
Fixpoint rule_reports {options} (getValidator : registry options)
    (attribute : string) (rules : list (string * options)) (o : Obj options)
    : list (string * string) :=
  match rules with
  | [] => []
  | rule :: rules' =>
      match getValidator rule.1 rule.2 with
      | Some v =>
          let reports := v o attribute (prop (props o) attribute) in
          reports ++
          rule_reports getValidator attribute rules'
            (set_validationErrors
               (replay_all (map added reports) (validationErrors o)) o)
      | None => []
      end
  end.

(** The reports of a re-validation of [attribute] on [o]: its prior errors
    are removed, then its rules run. *)
Definition reports_of {options} (getValidator : registry options)
    (attribute : string) (o : Obj options) : list (string * string) :=
  rule_reports getValidator attribute (rules_of o attribute)
    (set_validationErrors
       (ValidationErrors.remove attribute (validationErrors o)) o).

(** The properties under which the observer handles of [property] are
    kept. *)
Definition value_change_handle (property : string) : string :=
  "_observer" +:+ property +:+ "_value_change".
Definition focus_out_handle (property : string) : string :=
  "_observer" +:+ property +:+ "_focus_out".

(** One iteration of the loop of [_setupAutoValidateObserves], as a change
    of the object. *)
Definition wire_value_change {options} (o : Obj options) (property : string)
    : Obj options :=
  if negb (truthy (prop (props o) (value_change_handle property)))
  then set_prop (value_change_handle property) Ember_namespace
         (push_observer property ValueChange o)
  else o.

Definition wire_focus_out {options} (o : Obj options) (property : string)
    : Obj options :=
  if negb (truthy (prop (props o) (focus_out_handle property)))
  then set_prop (focus_out_handle property) Ember_namespace
         (push_observer (shouldValidate_key property) FocusOut o)
  else o.

Definition wire_step {options} (onValueChange onFocusOut : bool)
    (o : Obj options) (property : string) : Obj options :=
  let o1 := if onValueChange then wire_value_change o property else o in
  if onFocusOut then wire_focus_out o1 property else o1.

(** A reassignment of [validations] and of the two configuration flags,
    followed by the wiring step it triggers. *)
Definition rewire {options} (o : Obj options)
    (cfg : option (list (string * list (string * options))) * bool * bool)
    : Obj options :=
  post (assign_validations cfg.1.1 (set_flags cfg.1.2 cfg.2 o)).

(** Every registered observer has its handle set. *)
Definition handles_set {options} (o : Obj options) : Prop :=
  ∀ key method, (key, method) ∈ observers o →
    match method with
    | ValueChange => truthy (prop (props o) (value_change_handle key)) = true
    | FocusOut =>
        ∀ p, key = shouldValidate_key p →
             truthy (prop (props o) (focus_out_handle p)) = true
    end.

Definition wired {options} (o : Obj options) : Prop :=
  NoDup (observers o) ∧ handles_set o.

(** The number of observers registered on [key] with [method]. *)
Definition observer_count {options} (o : Obj options) (key : string)
    (method : handler) : nat :=
  length (filter (λ ob, ob = (key, method)) (observers o)).

(** The condition under which a value change re-validates. *)
Definition should_validate {options} (o : Obj options) (property : string)
    : bool :=
  truthy (prop (props o) (property +:+ "shouldValidate"))
  || _didValidateAllOnce o.

(** The value-change rule, stated for every declared attribute: on an
    object created without observers and wired with [validateOnValueChange]
    enabled, setting a declared attribute re-validates that attribute, and
    nothing else, when [should_validate] holds, and does nothing more than
    the write otherwise. *)
Definition value_change_claim : Prop :=
  ∀ (getValidator : registry jsval) (s0 : Obj jsval) v a
    (Ha : mixin_member a = false) x,
    observers s0 = [] →
    props s0 = ∅ →
    validateOnValueChange s0 = true →
    a ∈ v.*1 →
    let s := post (assign_validations (Some v) s0) in
    x ≠ prop (props s) a →
    Ember_set getValidator a Ha x s
    = (if should_validate (set_prop a x s) a
       then validateProperty getValidator a ;; mret tt
       else mret tt) (set_prop a x s).


(** A computation is tracked when all it changes of the object is the Error
    Collection, and the change is the one its log records. *)
Definition tracked {options A} (m : M (Obj options) A) : Prop :=
  ∀ s, post (m s)
       = set_validationErrors (replay_all (emitted (m s)) (validationErrors s)) s.

(** ** Further sample objects and vocabulary *)

Module Edge.

(** An object created without a [validations] hash. *)
Definition bare : Obj jsval := create None false false ∅.

(** An object one of whose rules names no validator. *)
Definition misconfigured : Obj jsval :=
  create (Some [("name", [("presence", JBool true); ("unknown", JBool true)])])
         false false ∅.

(** A field at address 1 with no binding at all, focused and left. *)
Definition unbound_form : Widget.heap :=
  {[ 1 := {[ "_didFocusIn" := JBool true; "_didFocusOut" := JBool true ]} ]}.

(** A field (at address 1), focused and left, whose [value] is bound to the
    global path [App.person.name]: the global object is at address 0, [App]
    at 4 and the person, the validated object, at 3. *)
Definition global_form : Widget.heap :=
  {[ 0 := {[ "App" := JRef 4 ]};
     1 := {[ "valueBinding" := JRef 2;
             "_didFocusIn" := JBool true; "_didFocusOut" := JBool true ]};
     2 := {[ "_from" := JStr "App.person.name" ]};
     3 := {[ "name" := JUndefined ]};
     4 := {[ "person" := JRef 3 ]} ]}.

(** The sample person with the [shouldValidate] flag of [name] set. *)
Definition touched_person : Obj jsval :=
  create (Some [("name", [("presence", JBool true)])]) true true
         {[ "nameshouldValidate" := JBool true ]}.

(** The sample field, focused and left while it was bound to
    [controller.name], and since bound to [controller.email]. *)
Definition rebound_form : Widget.heap :=
  {[ 1 := {[ "valueBinding" := JRef 2; "controller" := JRef 3;
             "_didFocusIn" := JBool true; "_didFocusOut" := JBool true ]};
     2 := {[ "_from" := JStr "controller.email" ]};
     3 := {[ "name" := JStr "Ada"; "nameshouldValidate" := JBool true;
             "email" := JUndefined ]} ]}.


End Edge.

(** The two focus transitions a view reports. *)
Inductive focus_event :=
  | Entered   (* [focusIn] *)
  | Left.     (* [focusOut] *)



(** The store after the view at [this] has handled a focus transition;
    [inherited] is the outcome of the inherited [focusIn]. *)
Definition focus_step (inherited : option error) (this : nat)
    (h : Widget.heap) (ev : focus_event) : Widget.heap :=
  post (match ev with
        | Entered => Widget.focusIn inherited this
        | Left => Widget.focusOut this
        end h).

(** * Properties *)

(** ** Running computations *)

Section Run.
Context {S : Type}.

Lemma run_bind {A B} (m : M S A) (f : A → M S B) (s : S) :
  (m ≫= f) s =
  match out (m s) with
  | inl e => Res (inl e) (post (m s)) (emitted (m s))
  | inr a => Res (out (f a (post (m s)))) (post (f a (post (m s))))
                 (emitted (m s) ++ emitted (f a (post (m s))))
  end.
Proof. reflexivity. Qed.

Lemma run_ret {A} (a : A) (s : S) : (mret a : M S A) s = Res (inr a) s [].
Proof. reflexivity. Qed.

Lemma res_eta {A} (r : res S A) : Res (out r) (post r) (emitted r) = r.
Proof. by destruct r. Qed.

Lemma run_get_this {A} (f : S → M S A) (s : S) : (get_this ≫= f) s = f s s.
Proof. rewrite run_bind. cbn. apply res_eta. Qed.

Lemma run_modify {A} (g : S → S) (m : M S A) (s : S) :
  (modify g ;; m) s = m (g s).
Proof. rewrite run_bind. cbn. apply res_eta. Qed.

Lemma for_in_cons {A} (x : A) xs (body : A → M S unit) :
  for_in (x :: xs) body = (body x ;; for_in xs body).
Proof. reflexivity. Qed.

(** A loop whose body is a pure state change that sends nothing is the fold
    of that change. *)
Lemma for_in_pure {A} (xs : list A) (body : A → M S unit) (step : S → A → S) :
  (∀ x s, body x s = Res (inr tt) (step s x) []) →
  ∀ s, for_in xs body s = Res (inr tt) (foldl step s xs) [].
Proof.
  intros Hbody. induction xs as [|x xs IH]; intros s; [done|].
  rewrite for_in_cons, run_bind, Hbody. cbn [out post emitted].
  by rewrite IH.
Qed.

End Run.

(** ** The Error Collection *)

Lemma replay_all_app evs1 evs2 e :
  replay_all (evs1 ++ evs2) e = replay_all evs2 (replay_all evs1 e).
Proof. apply foldl_app. Qed.

Lemma messages_add_eq a m (e : ValidationErrors.t) :
  ValidationErrors.messages a (ValidationErrors.add a m e)
  = ValidationErrors.messages a e ++ [m].
Proof.
  unfold ValidationErrors.add, ValidationErrors.messages at 1.
  by rewrite lookup_insert_eq.
Qed.

Lemma lookup_add_ne a b m (e : ValidationErrors.t) :
  a ≠ b → ValidationErrors.add a m e !! b = e !! b.
Proof. intros. unfold ValidationErrors.add. by rewrite lookup_insert_ne. Qed.

Lemma lookup_remove_ne a b (e : ValidationErrors.t) :
  a ≠ b → ValidationErrors.remove a e !! b = e !! b.
Proof. intros. unfold ValidationErrors.remove. by rewrite lookup_delete_ne. Qed.

(** Events that concern [a] alone leave every other sequence in place. *)
Lemma replay_all_frame a b evs (e : ValidationErrors.t) :
  a ≠ b → Forall (only_touches a) evs → replay_all evs e !! b = e !! b.
Proof.
  intros Hab Hevs. revert e.
  induction Hevs as [|ev evs Hev _ IH]; intros e; [done|].
  cbn [replay_all foldl]. fold (replay_all evs (replay e ev)). rewrite IH.
  destruct ev; cbn in Hev |- *; subst;
    auto using lookup_add_ne, lookup_remove_ne; done.
Qed.

(** The total is zero exactly when no sequence holds a message. *)
Lemma length_zero_iff (e : ValidationErrors.t) :
  ValidationErrors.length e = 0 ↔ ∀ a, ValidationErrors.messages a e = [].
Proof.
  unfold ValidationErrors.length, ValidationErrors.messages.
  induction e as [|a msgs e Hfresh Hfirst IH] using map_first_key_ind.
  - rewrite map_fold_empty. split; [|done]. intros _ a. by rewrite lookup_empty.
  - rewrite map_fold_insert_first_key by done. split.
    + intros Hz b. destruct (decide (a = b)) as [->|Hne].
      * rewrite lookup_insert_eq. cbn. destruct msgs; [done|]. cbn in Hz. lia.
      * rewrite lookup_insert_ne by done. apply IH. lia.
    + intros Hall.
      assert (msgs = []) as ->.
      { specialize (Hall a). by rewrite lookup_insert_eq in Hall. }
      cbn. apply IH. intros b. destruct (decide (a = b)) as [->|Hne].
      * by rewrite Hfresh.
      * specialize (Hall b). by rewrite lookup_insert_ne in Hall.
Qed.

(** ** The engine changes nothing but the Error Collection *)

Section Tracked.
Context {options : Type}.
Implicit Types s : Obj options.

Lemma set_validationErrors_twice e1 e2 s :
  set_validationErrors e1 (set_validationErrors e2 s) = set_validationErrors e1 s.
Proof. reflexivity. Qed.

Lemma set_validationErrors_same s :
  set_validationErrors (validationErrors s) s = s.
Proof. by destruct s. Qed.

Lemma tracked_ret {A} (a : A) : tracked (mret a : M (Obj options) A).
Proof. intros s. cbn. by rewrite set_validationErrors_same. Qed.

Lemma tracked_get : tracked (get_this : M (Obj options) _).
Proof. intros s. cbn. by rewrite set_validationErrors_same. Qed.

Lemma tracked_throw {A} err : tracked (throw err : M (Obj options) A).
Proof. intros s. cbn. by rewrite set_validationErrors_same. Qed.

Lemma tracked_bind {A B} (m : M (Obj options) A) (f : A → M (Obj options) B) :
  tracked m → (∀ a, tracked (f a)) → tracked (m ≫= f).
Proof.
  intros Hm Hf s. rewrite run_bind. destruct (out (m s)) as [err|a] eqn:Hout.
  - cbn. apply Hm.
  - cbn [post emitted]. rewrite (Hf a), replay_all_app, (Hm s). reflexivity.
Qed.

Lemma tracked_for_in {A} (xs : list A) (body : A → M (Obj options) unit) :
  (∀ x, tracked (body x)) → tracked (for_in xs body).
Proof.
  intros Hbody. induction xs as [|x xs IH]; [apply tracked_ret|].
  rewrite for_in_cons. apply tracked_bind; auto.
Qed.

Lemma tracked_notification key :
  tracked (propertyWillChange key : M (Obj options) unit)
  ∧ tracked (propertyDidChange key : M (Obj options) unit).
Proof. split; intros s; cbn; by rewrite set_validationErrors_same. Qed.

Lemma tracked_errors_clear : tracked (errors_clear : M (Obj options) unit).
Proof. intros s. reflexivity. Qed.

Lemma tracked_errors_remove a : tracked (errors_remove a : M (Obj options) unit).
Proof. intros s. reflexivity. Qed.

Lemma tracked_errors_add a m : tracked (errors_add a m : M (Obj options) unit).
Proof. intros s. reflexivity. Qed.

Variable getValidator : registry options.

Lemma tracked_run_validator (v : validator options) a value :
  tracked (run_validator v a value).
Proof.
  apply tracked_bind; [apply tracked_get|]. intros this.
  apply tracked_for_in. intros km. apply tracked_errors_add.
Qed.

Lemma tracked_resolve_validator name opts :
  tracked (resolve_validator getValidator name opts).
Proof.
  unfold resolve_validator.
  destruct (getValidator name opts); [apply tracked_ret | apply tracked_throw].
Qed.

Lemma tracked__validateProperty a : tracked (_validateProperty getValidator a).
Proof.
  unfold _validateProperty.
  apply tracked_bind; [apply tracked_get|]. intros this.
  apply tracked_bind; [apply tracked_errors_remove|]. intros _.
  apply tracked_bind.
  { destruct (validations this); [apply tracked_ret | apply tracked_throw]. }
  intros rules. apply tracked_bind.
  { apply tracked_for_in. intros rule. unfold apply_rule.
    apply tracked_bind; [apply tracked_resolve_validator|]. intros v.
    apply tracked_bind; [apply tracked_get|]. intros this'.
    apply tracked_run_validator. }
  intros _. apply tracked_bind; [apply tracked_get|]. intros this'.
  apply tracked_ret.
Qed.

Lemma tracked_validateProperty a : tracked (validateProperty getValidator a).
Proof.
  unfold validateProperty.
  apply tracked_bind; [apply tracked_notification|]. intros _.
  apply tracked_bind; [apply tracked__validateProperty|]. intros b.
  apply tracked_bind; [apply tracked_notification|]. intros _.
  apply tracked_ret.
Qed.

End Tracked.

(** ** What one attribute's re-validation does *)

Section ValidateProperty.
Context {options : Type}.
Variable getValidator : registry options.
Implicit Types s : Obj options.

Lemma run_errors_add a m s :
  errors_add a m s
  = Res (inr tt)
        (set_validationErrors (ValidationErrors.add a m (validationErrors s)) s)
        [ErrorsAdded a m].
Proof. reflexivity. Qed.

Lemma run_errors_remove a s :
  errors_remove a s
  = Res (inr tt)
        (set_validationErrors (ValidationErrors.remove a (validationErrors s)) s)
        [ErrorsRemoved a].
Proof. reflexivity. Qed.

Lemma run_errors_clear s :
  errors_clear s
  = Res (inr tt) (set_validationErrors ∅ s) [ErrorsCleared].
Proof. reflexivity. Qed.

Lemma run_adds (kms : list (string * string)) s :
  for_in kms (λ km, errors_add km.1 km.2) s
  = Res (inr tt)
        (set_validationErrors
           (replay_all (map added kms) (validationErrors s)) s)
        (map added kms).
Proof.
  revert s. induction kms as [|km kms IH]; intros s.
  - cbn. by rewrite set_validationErrors_same.
  - rewrite for_in_cons, run_bind, run_errors_add. cbn [out post emitted].
    rewrite IH. reflexivity.
Qed.

Lemma run_validator_run (v : validator options) a value s :
  run_validator v a value s
  = Res (inr tt)
        (set_validationErrors
           (replay_all (map added (v s a value)) (validationErrors s)) s)
        (map added (v s a value)).
Proof. unfold run_validator. rewrite run_bind. cbn. by rewrite run_adds. Qed.

Lemma run_apply_rule a (rule : string * options) s :
  apply_rule getValidator a rule s
  = match getValidator rule.1 rule.2 with
    | Some v =>
        Res (inr tt)
            (set_validationErrors
               (replay_all (map added (v s a (prop (props s) a)))
                           (validationErrors s)) s)
            (map added (v s a (prop (props s) a)))
    | None => Res (inl (NoValidatorFound rule.1)) s []
    end.
Proof.
  unfold apply_rule, resolve_validator. rewrite run_bind.
  destruct (getValidator rule.1 rule.2) as [v|]; [|reflexivity].
  cbn [mret M_ret out post emitted]. rewrite run_bind.
  cbn [get_this out post emitted]. by rewrite run_validator_run.
Qed.

(** The loop over the rules of one attribute only adds messages: the
    reports of the rules, in order. *)
Lemma rules_loop_emitted a (rules : list (string * options)) s :
  emitted (for_in rules (apply_rule getValidator a) s)
  = map added (rule_reports getValidator a rules s).
Proof.
  revert s. induction rules as [|rule rules IH]; intros s; [done|].
  rewrite for_in_cons, run_bind, run_apply_rule. cbn [rule_reports].
  destruct (getValidator rule.1 rule.2) as [v|]; [|done].
  cbn [out post emitted]. by rewrite IH, map_app.
Qed.

(** It runs to its end when every rule resolves. *)
Lemma rules_loop_out a (rules : list (string * options)) s :
  (∀ rule, rule ∈ rules → is_Some (getValidator rule.1 rule.2)) →
  out (for_in rules (apply_rule getValidator a) s) = inr tt.
Proof.
  revert s. induction rules as [|rule rules IH]; intros s Hall; [done|].
  rewrite for_in_cons, run_bind, run_apply_rule.
  destruct (Hall rule) as [v ->]; [by left|]. cbn [out post emitted].
  apply IH. intros rule' Hrule. apply Hall. by right.
Qed.

(** Under the validator contract the reports are all on the attribute. *)
Lemma rule_reports_contract a (rules : list (string * options)) s :
  validator_contract getValidator →
  Forall (λ km, km.1 = a) (rule_reports getValidator a rules s).
Proof.
  intros Hc. revert s. induction rules as [|rule rules IH]; intros s.
  - constructor.
  - cbn [rule_reports].
    destruct (getValidator rule.1 rule.2) as [v|] eqn:Hv; [|constructor].
    apply Forall_app. split; [|apply IH].
    apply Forall_forall. intros km Hkm. eapply Hc; eauto.
Qed.

Lemma _validateProperty_spec a s :
  let r := _validateProperty getValidator a s in
  emitted r = ErrorsRemoved a :: map added (reports_of getValidator a s)
  ∧ (∀ b, out r = inr b →
          b = negb (truthy (errors_length_of a (post r))))
  ∧ (resolvable_at getValidator s a → ∃ b, out r = inr b).
Proof.
  cbn zeta. unfold _validateProperty, reports_of, rules_of. rewrite run_bind.
  cbn [get_this out post emitted]. rewrite run_bind.
  rewrite run_errors_remove. cbn [out post emitted app]. rewrite run_bind.
  destruct (validations s) as [v|] eqn:Hv.
  - cbn [mret M_ret out post emitted app]. rewrite run_bind.
    rewrite rules_loop_emitted.
    destruct (out (for_in _ _ _)) as [err|[]] eqn:Hloop; cbn [out post emitted app].
    + repeat split; [done|].
      intros (v' & Hv' & Hres). assert (v' = v) as -> by congruence.
      by rewrite rules_loop_out in Hloop.
    + rewrite app_nil_r. repeat split; [|eauto].
      intros b [= <-]. reflexivity.
  - cbn. repeat split; [done|].
    intros (v' & Hv' & _). congruence.
Qed.

Lemma run_close {A} (a : A) s :
  (propertyDidChange "validationErrors" ;; mret a) s
  = Res (inr a) s [PropertyDidChange "validationErrors"].
Proof. reflexivity. Qed.

(** The bracketed re-validation: one pair of notifications around the
    removal and the reports; the closing one is sent when the rules ran to
    their end. *)
Lemma validateProperty_spec a s :
  let r := validateProperty getValidator a s in
  emitted r
  = PropertyWillChange "validationErrors" :: ErrorsRemoved a
    :: map added (reports_of getValidator a s)
    ++ match out r with
       | inl _ => []
       | inr _ => [PropertyDidChange "validationErrors"]
       end
  ∧ (∀ b, out r = inr b →
          b = negb (truthy (errors_length_of a (post r))))
  ∧ (resolvable_at getValidator s a → ∃ b, out r = inr b).
Proof.
  cbn zeta. destruct (_validateProperty_spec a s) as (Hem & Hret & Hres).
  cbn zeta in Hem, Hret, Hres.
  unfold validateProperty. rewrite run_bind.
  cbn [propertyWillChange emit out post emitted app]. rewrite run_bind.
  destruct (out (_validateProperty getValidator a s)) as [err|b] eqn:Hout;
    cbn [out post emitted app].
  - rewrite Hem, app_nil_r. repeat split; [done|].
    intros H. destruct (Hres H) as [b Hb]. done.
  - rewrite run_close, Hem. cbn [out post emitted]. repeat split; [|eauto].
    intros b' [= <-]. by apply Hret.
Qed.

End ValidateProperty.

Section ValidatePropertyClaims.
Context {options : Type}.
Variable getValidator : registry options.
Implicit Types s : Obj options.



(** C9. Under the validator contract, for every attribute [a] and every
    other attribute [b], [validateProperty(a)] leaves [b]'s sequence in the
    Error Collection as it was: every mutation it performs is the removal of
    [a]'s entries or the addition of a message for [a]. *)
Theorem validateProperty_frame a b s :
  validator_contract getValidator →
  a ≠ b →
  let r := validateProperty getValidator a s in
  validationErrors (post r) !! b = validationErrors s !! b
  ∧ Forall (only_touches a) (emitted r).
Proof.
  intros Hc Hab r.
  assert (Forall (only_touches a) (emitted r)) as Hshape.
  { destruct (validateProperty_spec getValidator a s) as (Hem & _ & _).
    fold r in Hem. rewrite Hem.
    constructor; [done|]. constructor; [done|]. apply Forall_app. split.
    - apply Forall_fmap.
      eapply Forall_impl; [apply (rule_reports_contract getValidator a _ _ Hc)|].
      intros km Hkm. exact Hkm.
    - destruct (out r); [constructor|]. constructor; [done|constructor]. }
  split; [|done]. subst r. rewrite tracked_validateProperty.
  cbn [validationErrors set_validationErrors].
  by apply (replay_all_frame a b).
Qed.

(** C10. For every attribute [a] with no entry in the object's
    [validations], [validateProperty(a)] raises no error: inside its
    notification bracket it removes the errors recorded for [a], runs no
    validator, and returns [true]. *)
Theorem validateProperty_undeclared a v s :
  validations s = Some v →
  hash_get v a = None →
  validateProperty getValidator a s
  = Res (inr true)
        (set_validationErrors
           (ValidationErrors.remove a (validationErrors s)) s)
        [PropertyWillChange "validationErrors"; ErrorsRemoved a;
         PropertyDidChange "validationErrors"].
Proof.
  intros Hv Ha.
  unfold validateProperty, _validateProperty. rewrite run_bind.
  cbn [propertyWillChange emit out post emitted app]. rewrite run_bind.
  rewrite run_bind. cbn [get_this out post emitted app]. rewrite run_bind.
  rewrite run_errors_remove. cbn [out post emitted app]. rewrite run_bind.
  rewrite Hv, Ha.
  unfold mbind, mret, M_bind, M_ret, get_this, propertyDidChange, emit. cbn.
  unfold errors_length_of, ValidationErrors.remove. cbn.
  by rewrite lookup_delete_eq.
Qed.

End ValidatePropertyClaims.

Lemma sample_person_resolvable_at a :
  resolvable_at Sample.getValidator Sample.person a.
Proof.
  eexists. split; [reflexivity|]. intros rule Hrule.
  change (rule ∈ default [] (if String.eqb "name" a
                             then Some [("presence", JBool true)]
                             else None)) in Hrule.
  destruct (String.eqb "name" a); cbn in Hrule.
  - apply list_elem_of_singleton in Hrule as ->. by eexists.
  - by apply elem_of_nil in Hrule.
Qed.

Lemma sample_contract : validator_contract Sample.getValidator.
Proof.
  intros name opts v o a value km Hv Hkm. unfold Sample.getValidator in Hv.
  destruct (String.eqb name "presence"); [|done].
  injection Hv as <-. unfold Sample.presence in Hkm.
  destruct (truthy value).
  - by apply elem_of_nil in Hkm.
  - by apply list_elem_of_singleton in Hkm as ->.
Qed.


Lemma validateProperty_frame_witness :
  validator_contract Sample.getValidator
  ∧ "name" ≠ "age"
  ∧ validationErrors
      (post (validateProperty Sample.getValidator "name" Sample.person))
    !! "age"
    = validationErrors Sample.person !! "age"
  ∧ Forall (only_touches "name")
      (emitted (validateProperty Sample.getValidator "name" Sample.person)).
Proof.
  split; [apply sample_contract|]. split; [done|].
  apply (validateProperty_frame Sample.getValidator "name" "age" Sample.person);
    [apply sample_contract | done].
Defined.

Lemma validateProperty_undeclared_witness :
  validateProperty Sample.getValidator "age" Sample.person
  = Res (inr true)
        (set_validationErrors
           (ValidationErrors.remove "age" (validationErrors Sample.person))
           Sample.person)
        [PropertyWillChange "validationErrors"; ErrorsRemoved "age";
         PropertyDidChange "validationErrors"].
Proof.
  apply (validateProperty_undeclared Sample.getValidator "age"
           [("name", [("presence", JBool true)])] Sample.person);
    reflexivity.
Defined.

(** ** What a full pass does *)

Section Validate.
Context {options : Type}.
Variable getValidator : registry options.
Implicit Types s : Obj options.

Lemma resolvable_at_errors e a s :
  resolvable_at getValidator (set_validationErrors e s) a
  ↔ resolvable_at getValidator s a.
Proof. reflexivity. Qed.

(** The loop of [validate] over the attributes. *)
Lemma attributes_loop_spec (keys : list string) s :
  let r := for_in keys (λ attribute,
             _validateProperty getValidator attribute ;; mret tt) s in
  Forall (λ ev, is_notification ev = false) (emitted r)
  ∧ post r
    = set_validationErrors (replay_all (emitted r) (validationErrors s)) s
  ∧ ((∀ a, a ∈ keys → resolvable_at getValidator s a) → out r = inr tt).
Proof.
  revert s. induction keys as [|a keys IH]; intros s.
  - cbn. rewrite set_validationErrors_same. by repeat split.
  - cbn zeta. rewrite for_in_cons, run_bind, run_bind.
    destruct (_validateProperty_spec getValidator a s) as (Hem & _ & Hout).
    cbn zeta in Hem, Hout.
    pose proof (tracked__validateProperty getValidator a s) as Hpost.
    assert (Forall (λ ev, is_notification ev = false)
              (emitted (_validateProperty getValidator a s))) as Hshape.
    { rewrite Hem. constructor; [done|]. apply Forall_fmap.
      by apply Forall_true. }
    destruct (out (_validateProperty getValidator a s)) as [err|b] eqn:Hb;
      cbn [out post emitted mret M_ret].
    + repeat split; [done|done|].
      intros Hall. destruct (Hout (Hall a ltac:(by left))) as [b' Hb']. done.
    + rewrite app_nil_r.
      match goal with |- context [for_in keys ?body ?s'] =>
        destruct (IH s') as (Hshape' & Hpost' & Hout') end.
      cbn zeta in Hshape', Hpost', Hout'. split; [|split].
      * by apply Forall_app.
      * rewrite Hpost', replay_all_app, Hpost. reflexivity.
      * intros Hall. apply Hout'. intros a' Ha'. rewrite Hpost.
        apply resolvable_at_errors, Hall. by right.
Qed.

Lemma validate_spec s :
  let r := validate getValidator s in
  ∃ body,
    emitted r
    = PropertyWillChange "validationErrors" :: ErrorsCleared :: body
      ++ match out r with
         | inl _ => []
         | inr _ => [PropertyDidChange "validationErrors"]
         end
    ∧ Forall (λ ev, is_notification ev = false) body
    ∧ post r
      = set_validationErrors (replay_all body ∅)
          (set_didValidateAllOnce true s)
    ∧ (∀ b, out r = inr b → b = isValid (post r))
    ∧ (resolvable getValidator s → ∃ b, out r = inr b).
Proof.
  cbn zeta. unfold validate. rewrite run_modify, run_get_this. cbn zeta.
  rewrite run_bind.
  cbn [propertyWillChange emit out post emitted app]. rewrite run_bind.
  rewrite run_errors_clear. cbn [out post emitted app]. rewrite run_bind.
  match goal with |- context [for_in ?keys ?body ?s'] =>
    destruct (attributes_loop_spec keys s') as (Hshape & Hpost & Hout);
    set (loop := for_in keys body s') in * end.
  cbn zeta in Hshape, Hpost, Hout. exists (emitted loop).
  destruct (out loop) as [err|[]] eqn:Hloop; cbn [out post emitted app].
  - rewrite app_nil_r. repeat split; [done|done|done|].
    intros Hres. by specialize (Hout Hres).
  - rewrite run_bind. cbn [propertyDidChange emit out post emitted app].
    rewrite run_bind. cbn [get_this mret M_ret out post emitted app].
    repeat split; [done|done| |eauto].
    intros b [= <-]. reflexivity.
Qed.

(** [validate] starts from a cleared collection and a set flag, whatever
    they were. *)
Lemma validate_reset e s :
  validate getValidator
    (set_validationErrors e (set_didValidateAllOnce true s))
  = validate getValidator s.
Proof. reflexivity. Qed.

End Validate.

Section ValidateClaims.
Context {options : Type}.
Variable getValidator : registry options.
Implicit Types s : Obj options.

(** A completed pass removed, hence re-validated, every declared attribute. *)
Lemma attributes_loop_visits (keys : list string) s a :
  out (for_in keys (λ attribute,
         _validateProperty getValidator attribute ;; mret tt) s) = inr tt →
  a ∈ keys →
  ErrorsRemoved a
  ∈ emitted (for_in keys (λ attribute,
               _validateProperty getValidator attribute ;; mret tt) s).
Proof.
  revert s. induction keys as [|k keys IH]; intros s Hout Ha.
  - by apply elem_of_nil in Ha.
  - rewrite for_in_cons, run_bind in Hout |- *. rewrite run_bind in Hout |- *.
    destruct (_validateProperty_spec getValidator k s) as (Hem & _ & _).
    cbn zeta in Hem.
    destruct (out (_validateProperty getValidator k s)) as [err|b] eqn:Hb;
      cbn [out post emitted mret M_ret] in Hout |- *; [done|].
    rewrite app_nil_r. apply elem_of_app.
    apply elem_of_cons in Ha as [->|Ha].
    + left. rewrite Hem. by left.
    + right. by apply IH.
Qed.

(** C1. For every validated object whose rules resolve, [validate()]
    returns, having re-validated every attribute key of [validations], and
    the value it returns is the derived [isValid]: it is [true] if and only
    if the total message count of the Error Collection is zero. *)
Theorem validate_returns_isValid s :
  resolvable getValidator s →
  let r := validate getValidator s in
  ∃ b, out r = inr b
    ∧ (∀ a, a ∈ validations_keys s → ErrorsRemoved a ∈ emitted r)
    ∧ b = isValid (post r)
    ∧ (b = true
       ↔ ValidationErrors.length (validationErrors (post r)) = 0).
Proof.
  intros Hres r.
  destruct (validate_spec getValidator s) as (body & _ & _ & _ & Hret & Hout).
  fold r in Hret, Hout. destruct (Hout Hres) as [b Hb]. exists b.
  split; [done|]. split; [|split; [by apply Hret|]].
  - intros a Ha. subst r. revert Hb. unfold validate.
    rewrite run_modify, run_get_this. cbn zeta. rewrite run_bind.
    cbn [propertyWillChange emit out post emitted app]. rewrite run_bind.
    rewrite run_errors_clear. cbn [out post emitted app]. rewrite run_bind.
    match goal with |- context [for_in ?keys ?body ?s'] =>
      pose proof (attributes_loop_visits keys s' a) as Hvisit;
      set (loop := for_in keys body s') in * end.
    destruct (out loop) as [err|[]]; cbn [out post emitted app]; [done|].
    intros _. right. right. apply elem_of_app. left. by apply Hvisit.
  - rewrite (Hret b Hb). unfold isValid. apply Nat.eqb_eq.
Qed.

(** C7. Calling [validate()] again on the object a first call left, nothing
    else having changed, repeats the first call: the Error Collection is the
    same after each (same keys, same sequences in the same order) and the
    two calls return the same value. *)
Theorem validate_twice s :
  let r1 := validate getValidator s in
  let r2 := validate getValidator (post r1) in
  validationErrors (post r2) = validationErrors (post r1)
  ∧ out r2 = out r1.
Proof.
  intros r1 r2.
  destruct (validate_spec getValidator s) as (body & _ & _ & Hpost & _).
  fold r1 in Hpost.
  assert (r2 = r1) as ->; [|done].
  subst r2. rewrite Hpost. apply validate_reset.
Qed.


End ValidateClaims.

Lemma sample_person_resolvable : resolvable Sample.getValidator Sample.person.
Proof. intros a _. apply sample_person_resolvable_at. Qed.

Lemma validate_returns_isValid_witness :
  resolvable Sample.getValidator Sample.person
  ∧ ∃ b, out (validate Sample.getValidator Sample.person) = inr b
      ∧ (∀ a, a ∈ validations_keys Sample.person →
              ErrorsRemoved a
              ∈ emitted (validate Sample.getValidator Sample.person))
      ∧ b = isValid (post (validate Sample.getValidator Sample.person))
      ∧ (b = true
         ↔ ValidationErrors.length
             (validationErrors
                (post (validate Sample.getValidator Sample.person))) = 0).
Proof.
  split; [apply sample_person_resolvable|].
  apply (validate_returns_isValid Sample.getValidator Sample.person).
  apply sample_person_resolvable.
Defined.


(** The sample pass, run: the unset [name] is reported once. *)
Example validate_sample_run :
  out (validate Sample.getValidator Sample.person) = inr false
  ∧ emitted (validate Sample.getValidator Sample.person)
    = [PropertyWillChange "validationErrors"; ErrorsCleared;
       ErrorsRemoved "name"; ErrorsAdded "name" "is required";
       PropertyDidChange "validationErrors"].
Proof. split; vm_compute; reflexivity. Qed.

(** ** Strings *)

Lemma append_cons c (s t : string) : String c s +:+ t = String c (s +:+ t).
Proof. reflexivity. Qed.

Lemma append_nil_l (t : string) : EmptyString +:+ t = t.
Proof. reflexivity. Qed.

Lemma append_nil_r (s : string) : s +:+ EmptyString = s.
Proof. induction s as [|c s IH]; [done|]. by rewrite append_cons, IH. Qed.

Lemma append_assoc (s1 s2 s3 : string) :
  (s1 +:+ s2) +:+ s3 = s1 +:+ (s2 +:+ s3).
Proof.
  induction s1 as [|c s1 IH]; [done|]. by rewrite !append_cons, IH.
Qed.

Lemma length_append (s1 s2 : string) :
  String.length (s1 +:+ s2) = String.length s1 + String.length s2.
Proof.
  induction s1 as [|c s1 IH]; [done|]. rewrite append_cons. cbn. by rewrite IH.
Qed.

Lemma append_inv_tail (s1 s2 t : string) : s1 +:+ t = s2 +:+ t → s1 = s2.
Proof.
  revert s2. induction s1 as [|c s1 IH]; intros [|c' s2] H.
  - done.
  - apply (f_equal String.length) in H. rewrite !length_append in H.
    cbn in H. lia.
  - apply (f_equal String.length) in H. rewrite !length_append in H.
    cbn in H. lia.
  - rewrite !append_cons in H. injection H as -> H. f_equal. by apply IH.
Qed.

Lemma string_last_append (s t : string) :
  t ≠ EmptyString → string_last (s +:+ t) = string_last t.
Proof.
  intros Ht. induction s as [|c s IH]; [done|].
  rewrite append_cons. cbn [string_last]. rewrite <- IH.
  destruct (s +:+ t) eqn:Hst; [|done].
  destruct s; [done|discriminate].
Qed.

Lemma prefix_refl_append (p s : string) : String.prefix p (p +:+ s) = true.
Proof.
  induction p as [|c p IH]; [by destruct s|].
  rewrite append_cons. cbn. by destruct (ascii_dec c c).
Qed.

Lemma string_drop_append (p s : string) :
  string_drop (String.length p) (p +:+ s) = s.
Proof. induction p as [|c p IH]; [by destruct s|]. by rewrite append_cons. Qed.

(** A prefix of [x +:+ y] no longer than [x] is a prefix of [x]. *)
Lemma prefix_append_short (p x y : string) :
  String.prefix p (x +:+ y) = true →
  (String.length p ≤ String.length x)%nat →
  String.prefix p x = true.
Proof.
  revert p. induction x as [|c x IH]; intros [|c' p] H Hlen;
    rewrite ?append_cons in H; cbn in *; try done; try lia.
  destruct (ascii_dec c' c); [|done]. apply IH; [done|lia].
Qed.

(** A prefix of [x +:+ y] at least as long as [x] continues into [y]. *)
Lemma prefix_append_long (p x y : string) :
  String.prefix p (x +:+ y) = true →
  (String.length x ≤ String.length p)%nat →
  String.prefix (string_drop (String.length x) p) y = true.
Proof.
  revert p. induction x as [|c x IH]; intros [|c' p] H Hlen;
    rewrite ?append_cons in H; cbn in *; try done; try lia.
  destruct (ascii_dec c' c); [|done]. apply IH; [done|lia].
Qed.

(** With a border-free pattern, appending the pattern to a non-empty string
    that does not start with it gives a string that does not start with it. *)
Lemma prefix_append_border_free (p x : string) :
  border_free p = true →
  String.prefix p x = false → x ≠ EmptyString →
  String.prefix p (x +:+ p) = false.
Proof.
  intros Hbf Hx Hne. destruct (String.prefix p (x +:+ p)) eqn:Hxp; [|done].
  destruct (decide (String.length p ≤ String.length x)%nat) as [Hle|Hgt].
  - by rewrite (prefix_append_short p x p Hxp Hle) in Hx.
  - apply prefix_append_long in Hxp; [|lia].
    unfold border_free in Hbf. rewrite forallb_forall in Hbf.
    specialize (Hbf (String.length x)). rewrite Hxp in Hbf.
    assert (String.length x ≠ 0) by (by destruct x).
    discriminate Hbf. apply in_seq. lia.
Qed.

Lemma replace_whole (p : string) : replace p EmptyString p = EmptyString.
Proof.
  assert (String.prefix p p = true) as Hpre.
  { pose proof (prefix_refl_append p EmptyString) as H.
    by rewrite append_nil_r in H. }
  assert (string_drop (String.length p) p = EmptyString) as Hdrop.
  { pose proof (string_drop_append p EmptyString) as H.
    by rewrite append_nil_r in H. }
  destruct p as [|c p]; [done|]. cbn [replace]. by rewrite Hpre, Hdrop.
Qed.

(** Removing the first occurrence of a border-free pattern from [a +:+ p]
    gives [a] back when [a] holds no occurrence of it. *)
Lemma replace_appended (p a : string) :
  border_free p = true → contains p a = false →
  replace p EmptyString (a +:+ p) = a.
Proof.
  intros Hbf. induction a as [|c a IH]; intros Ha.
  - rewrite append_nil_l. apply replace_whole.
  - cbn [contains] in Ha. apply orb_false_iff in Ha as [Hpre Hrest].
    pose proof (prefix_append_border_free p (String c a) Hbf Hpre) as Hno.
    rewrite append_cons in Hno |- *. cbn [replace].
    rewrite Hno by done. by rewrite IH.
Qed.

Lemma shouldValidate_border_free : border_free "shouldValidate" = true.
Proof. reflexivity. Qed.

(** ** The focus-out observer recovers the attribute name *)

(** For a name that holds no occurrence of the suffix, the focus-out
    observer recovers it from the observed key. *)
Lemma focus_out_recovers_plain_name (a : string) :
  contains "shouldValidate" a = false →
  replace "shouldValidate" EmptyString (shouldValidate_key a) = a.
Proof. apply replace_appended, shouldValidate_border_free. Qed.

Lemma focus_out_plain_name {options} (getValidator : registry options)
    (a : string) (s : Obj options) :
  contains "shouldValidate" a = false →
  _onFocusOutValidateAttribute getValidator (shouldValidate_key a) s
  = (if should_validate s a
     then validateProperty getValidator a ;; mret tt
     else mret tt) s.
Proof.
  intros Ha. unfold _onFocusOutValidateAttribute.
  rewrite (focus_out_recovers_plain_name a Ha). by rewrite run_get_this.
Qed.

(** C4 (at a failing input). For the attribute [shouldValidateX] the
    observed key is [shouldValidateXshouldValidate]; the observer removes its
    first occurrence of the suffix, not the last, and re-validates
    [XshouldValidate], an attribute that has no rules, leaving
    [shouldValidateX] unvalidated. *)
Theorem focus_out_strips_first_occurrence :
  replace "shouldValidate" EmptyString (shouldValidate_key "shouldValidateX")
  = "XshouldValidate"
  ∧ should_validate Sample.marked "shouldValidateX" = true
  ∧ emitted (_onFocusOutValidateAttribute Sample.getValidator
               (shouldValidate_key "shouldValidateX") Sample.marked)
    = [PropertyWillChange "validationErrors";
       ErrorsRemoved "XshouldValidate";
       PropertyDidChange "validationErrors"]
  ∧ emitted (validateProperty Sample.getValidator "shouldValidateX"
               Sample.marked)
    = [PropertyWillChange "validationErrors";
       ErrorsRemoved "shouldValidateX";
       ErrorsAdded "shouldValidateX" "is required";
       PropertyDidChange "validationErrors"].
Proof. repeat split; vm_compute; reflexivity. Qed.

(** ** The wiring step *)

Section Wiring.
Context {options : Type}.
Implicit Types s : Obj options.

Lemma run_wire_value_change property s :
  (this ← get_this;
   if negb (truthy (prop (props this)
                      ("_observer" +:+ property +:+ "_value_change")))
   then h ← addObserver property ValueChange;
        modify (set_prop ("_observer" +:+ property +:+ "_value_change") h)
   else mret tt) s
  = Res (inr tt) (wire_value_change s property) [].
Proof.
  rewrite run_get_this. unfold wire_value_change, value_change_handle.
  by destruct (truthy _).
Qed.

Lemma run_wire_focus_out property s :
  (this ← get_this;
   if negb (truthy (prop (props this)
                      ("_observer" +:+ property +:+ "_focus_out")))
   then h ← addObserver (shouldValidate_key property) FocusOut;
        modify (set_prop ("_observer" +:+ property +:+ "_focus_out") h)
   else mret tt) s
  = Res (inr tt) (wire_focus_out s property) [].
Proof.
  rewrite run_get_this. unfold wire_focus_out, focus_out_handle.
  by destruct (truthy _).
Qed.

Lemma _setupAutoValidateObserves_run s :
  _setupAutoValidateObserves s
  = Res (inr tt)
        (foldl (wire_step (validateOnValueChange s) (validateOnFocusOut s))
               s (validations_keys s))
        [].
Proof.
  unfold _setupAutoValidateObserves. rewrite run_get_this. cbn zeta.
  apply for_in_pure. intros property s'. unfold wire_step. rewrite run_bind.
  destruct (validateOnValueChange s), (validateOnFocusOut s);
    rewrite ?run_wire_value_change; cbn [mret M_ret out post emitted];
    rewrite ?run_wire_focus_out; reflexivity.
Qed.

Lemma truthy_prop_insert (m : gmap string jsval) k k' :
  truthy (prop m k') = true →
  truthy (prop (<[k := Ember_namespace]> m) k') = true.
Proof.
  intros H. unfold prop. destruct (decide (k = k')) as [->|Hne].
  - by rewrite lookup_insert_eq.
  - by rewrite lookup_insert_ne.
Qed.

Lemma handles_set_insert s k :
  handles_set s → handles_set (set_prop k Ember_namespace s).
Proof.
  intros H key method Hin. specialize (H key method Hin).
  destruct method; cbn [props set_prop].
  - by apply truthy_prop_insert.
  - intros p Hp. by apply truthy_prop_insert, H.
Qed.

Lemma wired_wire_value_change s p : wired s → wired (wire_value_change s p).
Proof.
  intros [Hnd Hset]. unfold wire_value_change.
  destruct (truthy (prop (props s) (value_change_handle p))) eqn:Ht;
    cbn [negb]; [done|].
  split.
  - cbn [observers set_prop push_observer]. apply NoDup_app.
    split; [done|]. split; [|apply NoDup_singleton].
    intros ob Hob ->%list_elem_of_singleton.
    specialize (Hset _ _ Hob). cbn in Hset. congruence.
  - intros key method Hin. cbn [observers set_prop push_observer] in Hin.
    apply elem_of_app in Hin as [Hin|Hin].
    + by apply (handles_set_insert s _ Hset key method).
    + apply list_elem_of_singleton in Hin as [= -> ->].
      cbn [props set_prop push_observer]. unfold prop.
      by rewrite lookup_insert_eq.
Qed.

Lemma wired_wire_focus_out s p : wired s → wired (wire_focus_out s p).
Proof.
  intros [Hnd Hset]. unfold wire_focus_out.
  destruct (truthy (prop (props s) (focus_out_handle p))) eqn:Ht;
    cbn [negb]; [done|].
  split.
  - cbn [observers set_prop push_observer]. apply NoDup_app.
    split; [done|]. split; [|apply NoDup_singleton].
    intros ob Hob ->%list_elem_of_singleton.
    specialize (Hset _ _ Hob p eq_refl). congruence.
  - intros key method Hin. cbn [observers set_prop push_observer] in Hin.
    apply elem_of_app in Hin as [Hin|Hin].
    + by apply (handles_set_insert s _ Hset key method).
    + apply list_elem_of_singleton in Hin as [= -> ->].
      intros p' Hp'. apply append_inv_tail in Hp' as <-.
      cbn [props set_prop push_observer]. unfold prop.
      by rewrite lookup_insert_eq.
Qed.

Lemma wired_wire_step onValueChange onFocusOut s p :
  wired s → wired (wire_step onValueChange onFocusOut s p).
Proof.
  intros H. unfold wire_step. destruct onValueChange, onFocusOut;
    auto using wired_wire_value_change, wired_wire_focus_out.
Qed.

Lemma wired_foldl onValueChange onFocusOut (keys : list string) s :
  wired s → wired (foldl (wire_step onValueChange onFocusOut) s keys).
Proof.
  revert s. induction keys as [|k keys IH]; intros s H; [done|].
  cbn [foldl]. by apply IH, wired_wire_step.
Qed.

Lemma rewire_run s cfg :
  rewire s cfg
  = foldl (wire_step cfg.1.2 cfg.2)
      (set_validations cfg.1.1 (set_flags cfg.1.2 cfg.2 s))
      (validations_keys (set_validations cfg.1.1 s)).
Proof.
  unfold rewire, assign_validations.
  by rewrite run_modify, _setupAutoValidateObserves_run.
Qed.

Lemma wired_rewire s cfg : wired s → wired (rewire s cfg).
Proof. intros H. rewrite rewire_run. by apply wired_foldl. Qed.

Lemma filter_none {A} (P : A → Prop) `{∀ x, Decision (P x)} (l : list A) :
  (∀ y, y ∈ l → ¬ P y) → filter P l = [].
Proof.
  induction l as [|y l IH]; intros Hall; [done|].
  rewrite filter_cons_False by (apply Hall; by left).
  apply IH. intros z Hz. apply Hall. by right.
Qed.

Lemma NoDup_count {A} `{EqDecision A} (l : list A) (x : A) :
  NoDup l → (length (filter (λ y, y = x) l) ≤ 1)%nat.
Proof.
  induction 1 as [|y l Hy Hnd IH]; [cbn; lia|].
  rewrite filter_cons. destruct (decide (y = x)) as [->|Hne]; [|done].
  cbn. assert (filter (λ y, y = x) l = []) as ->; [|cbn; lia].
  apply filter_none. by intros y Hin ->.
Qed.

(** C6. Starting from an object with no observers, after any number of
    reassignments of [validations] (and of the two flags), each followed by
    the wiring step, every attribute has at most one value-change observer
    and at most one focus-out observer. *)
Theorem wiring_installs_at_most_one s0
    (cfgs : list (option (list (string * list (string * options)))
                  * bool * bool)) a :
  observers s0 = [] →
  (observer_count (foldl rewire s0 cfgs) a ValueChange ≤ 1)%nat
  ∧ (observer_count (foldl rewire s0 cfgs) (shouldValidate_key a) FocusOut
     ≤ 1)%nat.
Proof.
  intros Hnone.
  assert (wired (foldl rewire s0 cfgs)) as [Hnd _].
  { assert (wired s0) as Hw.
    { split; [rewrite Hnone; constructor|].
      intros key method Hin. rewrite Hnone in Hin. by apply elem_of_nil in Hin. }
    clear Hnone. revert s0 Hw.
    induction cfgs as [|cfg cfgs IH]; intros s0 Hw; [done|].
    cbn [foldl]. by apply IH, wired_rewire. }
  unfold observer_count. split; by apply NoDup_count.
Qed.

(** *** The observer a value change meets *)

Lemma value_change_handle_inj p q :
  value_change_handle p = value_change_handle q → p = q.
Proof.
  unfold value_change_handle. intros H.
  apply (inj (String.app "_observer")) in H. by apply append_inv_tail in H.
Qed.

Lemma focus_out_handle_ne p q : focus_out_handle p ≠ value_change_handle q.
Proof.
  unfold focus_out_handle, value_change_handle. intros H.
  apply (inj (String.app "_observer")) in H.
  apply (f_equal string_last) in H.
  rewrite !string_last_append in H by done. discriminate H.
Qed.

Lemma observers_wire_step onValueChange onFocusOut s p ob :
  ob ∈ observers s → ob ∈ observers (wire_step onValueChange onFocusOut s p).
Proof.
  intros H. unfold wire_step, wire_value_change, wire_focus_out.
  repeat match goal with
    | |- context [if ?b then _ else _] => destruct b
    end; cbn [observers set_prop push_observer];
    rewrite ?elem_of_app; auto.
Qed.

Lemma observers_foldl onValueChange onFocusOut (keys : list string) s ob :
  ob ∈ observers s →
  ob ∈ observers (foldl (wire_step onValueChange onFocusOut) s keys).
Proof.
  revert s. induction keys as [|k keys IH]; intros s H; [done|].
  cbn [foldl]. by apply IH, observers_wire_step.
Qed.

(** While the handle of [a] is unset or its observer is registered, wiring
    keeps it so. *)
Lemma handle_wire_step onValueChange onFocusOut s p a :
  (truthy (prop (props s) (value_change_handle a)) = true →
   (a, ValueChange) ∈ observers s) →
  truthy (prop (props (wire_step onValueChange onFocusOut s p))
            (value_change_handle a)) = true →
  (a, ValueChange) ∈ observers (wire_step onValueChange onFocusOut s p).
Proof.
  intros HJ. unfold wire_step, wire_value_change, wire_focus_out.
  destruct onValueChange, onFocusOut;
    repeat match goal with
      | |- context [if negb ?b then _ else _] => destruct b eqn:?; cbn [negb]
      end; cbn [observers props set_prop push_observer]; unfold prop;
    rewrite ?elem_of_app, ?list_elem_of_singleton;
    repeat match goal with
      | |- context [<[focus_out_handle _ := _]> _ !! value_change_handle _] =>
          rewrite lookup_insert_ne by apply focus_out_handle_ne
      end;
    try (destruct (decide (p = a)) as [->|Hne];
         [by auto | rewrite lookup_insert_ne
                      by (intros ?%value_change_handle_inj; done)]);
    intros Ht; auto.
Qed.

Lemma wire_step_registers onFocusOut s a :
  (truthy (prop (props s) (value_change_handle a)) = true →
   (a, ValueChange) ∈ observers s) →
  (a, ValueChange) ∈ observers (wire_step true onFocusOut s a).
Proof.
  intros HJ.
  assert ((a, ValueChange) ∈ observers (wire_value_change s a)) as Hin.
  { unfold wire_value_change.
    destruct (truthy (prop (props s) (value_change_handle a))) eqn:Ht;
      cbn [negb]; [by apply HJ|].
    cbn [observers set_prop push_observer]. apply elem_of_app. right.
    by apply list_elem_of_singleton. }
  unfold wire_step. destruct onFocusOut; [|done].
  unfold wire_focus_out. destruct (negb _); [|done].
  cbn [observers set_prop push_observer]. apply elem_of_app. by left.
Qed.

Lemma foldl_registers onFocusOut (keys : list string) s a :
  (truthy (prop (props s) (value_change_handle a)) = true →
   (a, ValueChange) ∈ observers s) →
  a ∈ keys →
  (a, ValueChange) ∈ observers (foldl (wire_step true onFocusOut) s keys).
Proof.
  revert s. induction keys as [|k keys IH]; intros s HJ Ha.
  - by apply elem_of_nil in Ha.
  - cbn [foldl]. destruct (decide (k = a)) as [->|Hne].
    + by apply observers_foldl, wire_step_registers.
    + apply IH; [by apply handle_wire_step|].
      apply elem_of_cons in Ha as [->|Ha]; done.
Qed.

Lemma focus_out_handle_inj p q :
  focus_out_handle p = focus_out_handle q → p = q.
Proof.
  unfold focus_out_handle. intros H.
  apply (inj (String.app "_observer")) in H. by apply append_inv_tail in H.
Qed.

(** The same for the focus-out observer of [a]. *)
Lemma focus_handle_wire_step onValueChange onFocusOut s p a :
  (truthy (prop (props s) (focus_out_handle a)) = true →
   (shouldValidate_key a, FocusOut) ∈ observers s) →
  truthy (prop (props (wire_step onValueChange onFocusOut s p))
            (focus_out_handle a)) = true →
  (shouldValidate_key a, FocusOut)
  ∈ observers (wire_step onValueChange onFocusOut s p).
Proof.
  intros HJ. unfold wire_step, wire_value_change, wire_focus_out.
  destruct onValueChange, onFocusOut;
    repeat match goal with
      | |- context [if negb ?b then _ else _] => destruct b eqn:?; cbn [negb]
      end; cbn [observers props set_prop push_observer]; unfold prop;
    rewrite ?elem_of_app, ?list_elem_of_singleton;
    try (destruct (decide (p = a)) as [->|Hne]; [by auto|]);
    repeat (rewrite lookup_insert_ne
              by first [ intros ?%focus_out_handle_inj; done
                       | intros Heq; symmetry in Heq;
                         by apply focus_out_handle_ne in Heq ]);
    intros Ht; auto.
Qed.

Lemma wire_step_registers_focus onValueChange s a :
  (truthy (prop (props s) (focus_out_handle a)) = true →
   (shouldValidate_key a, FocusOut) ∈ observers s) →
  (shouldValidate_key a, FocusOut)
  ∈ observers (wire_step onValueChange true s a).
Proof.
  intros HJ. unfold wire_step.
  set (s1 := if onValueChange then wire_value_change s a else s).
  assert (truthy (prop (props s1) (focus_out_handle a)) = true →
          (shouldValidate_key a, FocusOut) ∈ observers s1) as HJ1.
  { subst s1. destruct onValueChange; [|done].
    apply (focus_handle_wire_step true false s a a HJ). }
  unfold wire_focus_out.
  destruct (truthy (prop (props s1) (focus_out_handle a))) eqn:Ht;
    cbn [negb]; [by apply HJ1|].
  cbn [observers set_prop push_observer]. apply elem_of_app. right.
  by apply list_elem_of_singleton.
Qed.

(** With [validateOnFocusOut] enabled, wiring an object that had no observers
    registers, for each declared attribute, the focus-out observer on the
    attribute's [shouldValidate] key. *)
Lemma focus_out_observer_registered s0 v a :
  observers s0 = [] →
  truthy (prop (props s0) (focus_out_handle a)) = false →
  validateOnFocusOut s0 = true →
  a ∈ v.*1 →
  (shouldValidate_key a, FocusOut)
  ∈ observers (post (assign_validations (Some v) s0)).
Proof.
  intros Hnone Hhandle Hfo Ha. unfold assign_validations.
  rewrite run_modify, _setupAutoValidateObserves_run. cbn [post].
  cbn [validateOnValueChange validateOnFocusOut set_validations
       validations_keys validations]. rewrite Hfo.
  assert (truthy (prop (props (set_validations (Some v) s0))
                    (focus_out_handle a)) = true →
          (shouldValidate_key a, FocusOut)
          ∈ observers (set_validations (Some v) s0)) as HJ.
  { cbn [props set_validations]. congruence. }
  revert HJ. generalize (set_validations (Some v) s0).
  generalize (validateOnValueChange s0). intros vc.
  induction (v.*1) as [|k keys IH]; intros s HJ.
  - by apply elem_of_nil in Ha.
  - cbn [foldl]. destruct (decide (k = a)) as [->|Hne].
    + by apply observers_foldl, wire_step_registers_focus.
    + apply IH; [|by apply focus_handle_wire_step].
      apply elem_of_cons in Ha as [->|Ha]; done.
Qed.

(** The observers wiring adds are those of the keys it visits. *)
Lemma foldl_observers_from onValueChange onFocusOut (keys : list string) s
    key method :
  (key, method) ∈ observers (foldl (wire_step onValueChange onFocusOut) s keys) →
  (key, method) ∈ observers s
  ∨ match method with
    | ValueChange => key ∈ keys
    | FocusOut => onFocusOut = true ∧ ∃ p, p ∈ keys ∧ key = shouldValidate_key p
    end.
Proof.
  revert s. induction keys as [|k keys IH]; intros s Hin; [by left|].
  cbn [foldl] in Hin. apply IH in Hin as [Hin|Hin].
  - unfold wire_step, wire_value_change, wire_focus_out in Hin.
    destruct onValueChange, onFocusOut;
      repeat match type of Hin with
        | context [if negb ?b then _ else _] => destruct b; cbn [negb] in Hin
        end; cbn [observers set_prop push_observer] in Hin;
      rewrite ?elem_of_app, ?list_elem_of_singleton in Hin;
      destruct_or?; simplify_eq; auto;
      right; first [by left | split; [done|]; exists k; split; [by left|done]].
  - right. destruct method.
    + by right.
    + destruct Hin as (Hf & p & Hp & ->). split; [done|].
      exists p. split; [by right|done].
Qed.

Lemma filter_unique {A} (P : A → Prop) `{∀ x, Decision (P x)} (l : list A) x :
  NoDup l → x ∈ l → P x → (∀ y, y ∈ l → P y → y = x) → filter P l = [x].
Proof.
  induction 1 as [|y l Hy Hnd IH]; intros Hin HP Huniq.
  - by apply elem_of_nil in Hin.
  - apply elem_of_cons in Hin as [<-|Hin].
    + rewrite filter_cons_True by done. f_equal. apply filter_none.
      intros z Hz HPz. assert (z = x) as -> by (apply Huniq; [by right|done]).
      done.
    + rewrite filter_cons_False.
      * apply IH; [done|done|]. intros z Hz. apply Huniq. by right.
      * intros HPy. assert (y = x) as -> by (apply Huniq; [by left|done]).
        done.
Qed.

(** After wiring an object that had no observers, with
    [validateOnValueChange] enabled, a declared attribute that is not the
    focus-out key of another one is observed by its value-change observer
    and by nothing else. *)
Lemma observers_of_attribute s0 v a :
  observers s0 = [] →
  truthy (prop (props s0) (value_change_handle a)) = false →
  validateOnValueChange s0 = true →
  a ∈ v.*1 →
  (validateOnFocusOut s0 = true →
   ∀ p, p ∈ v.*1 → a ≠ shouldValidate_key p) →
  filter (λ ob, ob.1 = a)
         (observers (post (assign_validations (Some v) s0)))
  = [(a, ValueChange)].
Proof.
  intros Hnone Hhandle Hvc Ha Hfo.
  unfold assign_validations.
  rewrite run_modify, _setupAutoValidateObserves_run. cbn [post].
  cbn [validateOnValueChange validateOnFocusOut set_validations
       validations_keys validations]. rewrite Hvc.
  apply filter_unique.
  - apply wired_foldl. split; cbn [observers set_validations].
    + rewrite Hnone. constructor.
    + intros key method Hin. cbn [observers set_validations] in Hin.
      rewrite Hnone in Hin. by apply elem_of_nil in Hin.
  - apply foldl_registers; [|done]. cbn [props set_validations]. congruence.
  - done.
  - intros [key method] Hin Hkey. cbn [fst] in Hkey. subst key.
    apply foldl_observers_from in Hin as [Hin|Hin].
    + cbn [observers set_validations] in Hin. rewrite Hnone in Hin.
      by apply elem_of_nil in Hin.
    + destruct method; [done|].
      destruct Hin as (Hf & p & Hp & Heq). by destruct (Hfo Hf p Hp).
Qed.

End Wiring.

(** ** A value change of a declared attribute *)

Section ValueChange.
Context {options : Type}.
Variable getValidator : registry options.
Implicit Types s : Obj options.

Lemma run_then_ret (m : M (Obj options) unit) s : (m ;; mret tt) s = m s.
Proof.
  rewrite run_bind. destruct (m s) as [[err|[]] s' evs]; cbn; [done|].
  by rewrite app_nil_r.
Qed.

Lemma _onValueChangeValidateAttribute_run a s :
  _onValueChangeValidateAttribute getValidator a s
  = (if should_validate s a
     then validateProperty getValidator a ;; mret tt
     else mret tt) s.
Proof. unfold _onValueChangeValidateAttribute. by rewrite run_get_this. Qed.

(** C5 (amended). On an object created without observers and wired with
    [validateOnValueChange] enabled, for every declared attribute [a] that is
    not the [shouldValidate] key of an attribute observed for focus-out, a
    change of [a]'s value (the value written differs from the current one)
    re-validates [a], and only [a], through [validateProperty] when [a]'s
    [shouldValidate] flag is set or a full [validate()] has run; otherwise
    the write is all that happens. *)
Theorem value_change_revalidates s0 v a (Ha : mixin_member a = false) x :
  observers s0 = [] →
  truthy (prop (props s0) (value_change_handle a)) = false →
  validateOnValueChange s0 = true →
  a ∈ v.*1 →
  (validateOnFocusOut s0 = true →
   ∀ p, p ∈ v.*1 → a ≠ shouldValidate_key p) →
  let s := post (assign_validations (Some v) s0) in
  x ≠ prop (props s) a →
  Ember_set getValidator a Ha x s
  = (if should_validate (set_prop a x s) a
     then validateProperty getValidator a ;; mret tt
     else mret tt) (set_prop a x s).
Proof.
  intros Hnone Hhandle Hvc Hin Hfo s Hx.
  pose proof (observers_of_attribute s0 v a Hnone Hhandle Hvc Hin Hfo) as Hobs.
  fold s in Hobs.
  unfold Ember_set. rewrite run_get_this, Hobs.
  rewrite bool_decide_eq_true_2 by done.
  destruct (decide (x = prop (props s) a)) as [Heq|_]; [done|].
  rewrite run_modify. unfold notify. rewrite run_get_this.
  cbn [observers set_prop]. rewrite Hobs.
  rewrite for_in_cons. cbn [for_in fst snd call_handler].
  rewrite run_then_ret. apply _onValueChangeValidateAttribute_run.
Qed.

End ValueChange.

Lemma value_change_revalidates_witness :
  should_validate
    (set_prop "name" (JStr "Ada")
       (post (assign_validations
                (Some [("name", [("presence", JBool true)])])
                Edge.touched_person))) "name" = true
  ∧ Ember_set Sample.getValidator "name" eq_refl (JStr "Ada")
      (post (assign_validations (Some [("name", [("presence", JBool true)])])
               Edge.touched_person))
    = (if should_validate
            (set_prop "name" (JStr "Ada")
               (post (assign_validations
                        (Some [("name", [("presence", JBool true)])])
                        Edge.touched_person))) "name"
       then validateProperty Sample.getValidator "name" ;; mret tt
       else mret tt)
        (set_prop "name" (JStr "Ada")
           (post (assign_validations
                    (Some [("name", [("presence", JBool true)])])
                    Edge.touched_person))).
Proof.
  split; [reflexivity|].
  apply (value_change_revalidates Sample.getValidator Edge.touched_person
           [("name", [("presence", JBool true)])] "name" eq_refl (JStr "Ada")).
  - reflexivity.
  - reflexivity.
  - reflexivity.
  - by apply list_elem_of_singleton.
  - intros _ p Hp. apply list_elem_of_singleton in Hp as ->. discriminate.
  - discriminate.
Defined.

(** The value change of the witness, run: the flag of [name] is set, so the
    write of a name re-validates [name], which is now present. *)
Example touched_value_change :
  emitted (Ember_set Sample.getValidator "name" eq_refl (JStr "Ada")
             (post (init Edge.touched_person)))
  = [PropertyWillChange "validationErrors"; ErrorsRemoved "name";
     PropertyDidChange "validationErrors"].
Proof. vm_compute. reflexivity. Qed.

(** C5 (as stated) fails when a declared attribute is named as the
    focus-out key of another one: on [Sample.overlapping], setting
    [xshouldValidate], whose own flag is unset and before any [validate()],
    re-validates [x]. *)
Lemma value_change_claim_fails : ¬ value_change_claim.
Proof.
  intros H.
  specialize (H Sample.getValidator Sample.overlapping
                [("x", []); ("xshouldValidate", [])]
                "xshouldValidate" eq_refl (JBool true)
                eq_refl eq_refl eq_refl).
  cbn zeta in H.
  assert ("xshouldValidate" ∈ [("x", [] : list (string * jsval));
                                ("xshouldValidate", [])].*1) as Hin.
  { right. left. }
  specialize (H Hin).
  assert (JBool true
          ≠ prop (props (post (assign_validations
                                 (Some [("x", []); ("xshouldValidate", [])])
                                 Sample.overlapping))) "xshouldValidate")
    as Hx.
  { vm_compute. discriminate. }
  specialize (H Hx). apply (f_equal emitted) in H.
  vm_compute in H. discriminate H.
Qed.

Example overlapping_value_change :
  should_validate
    (set_prop "xshouldValidate" (JBool true) (post (init Sample.overlapping)))
    "xshouldValidate" = false
  ∧ emitted (Ember_set Sample.getValidator "xshouldValidate" eq_refl
               (JBool true) (post (init Sample.overlapping)))
    = [PropertyWillChange "validationErrors"; ErrorsRemoved "x";
       PropertyDidChange "validationErrors"].
Proof. split; vm_compute; reflexivity. Qed.

(** ** The control views derive the flag on the bound object *)

Lemma split_path_dot_free (s : string) :
  dot_free s = true → split_path s = [s].
Proof.
  induction s as [|c s IH]; [done|]. cbn [dot_free split_path].
  intros [Hc Hs]%andb_true_iff. apply negb_true_iff in Hc. rewrite Hc.
  by rewrite (IH Hs).
Qed.

Lemma split_path_segment (seg rest : string) :
  dot_free seg = true →
  split_path (seg +:+ "." +:+ rest) = seg :: split_path rest.
Proof.
  induction seg as [|c seg IH]; [done|]. cbn [dot_free].
  intros [Hc Hs]%andb_true_iff. apply negb_true_iff in Hc.
  rewrite append_cons. cbn [split_path]. rewrite Hc. by rewrite (IH Hs).
Qed.

Lemma join_path_cons (seg : string) (segs : list string) :
  segs ≠ [] →
  Widget.join_path (seg :: segs) = seg +:+ "." +:+ Widget.join_path segs.
Proof. by destruct segs. Qed.

Lemma split_join_path (segs : list string) (x : string) :
  Forall (λ seg, dot_free seg = true) segs → dot_free x = true →
  split_path (Widget.join_path (segs ++ [x])) = segs ++ [x].
Proof.
  intros Hsegs Hx. induction Hsegs as [|seg segs Hseg _ IH].
  - by apply split_path_dot_free.
  - cbn [app]. rewrite join_path_cons by (by destruct segs).
    by rewrite split_path_segment, IH.
Qed.



Section WidgetClaims.
Import Widget.
Implicit Types h : heap.

Lemma Ember_get_key h root (key : string) :
  dot_free key = true → Ember_get h root key = get_key h root key.
Proof. intros Hk. unfold Ember_get. by rewrite split_path_dot_free. Qed.

Lemma get_key_ref h l bag (key : string) :
  h !! l = Some bag → get_key h (JRef l) key = prop bag key.
Proof. intros H. unfold get_key. by rewrite H. Qed.

(** Writing through a path whose last segment is [key] and whose other
    segments lead from [root] to the object at [target]. *)
Lemma Ember_set_resolved h root (segs : list string) (key : string) value
    target bag :
  Forall (λ seg, dot_free seg = true) segs → dot_free key = true →
  get_path h root segs = JRef target →
  h !! target = Some bag →
  Ember_set root (join_path (segs ++ [key])) value h
  = Res (inr tt) (<[target := <[key := value]> bag]> h) [].
Proof.
  intros Hsegs Hkey Hpath Hbag. unfold Ember_set. rewrite run_get_this.
  rewrite split_join_path by done.
  rewrite removelast_last, last_last, Hpath, Hbag. reflexivity.
Qed.


End WidgetClaims.



Example global_binding_throws :
  out (Widget._setupShouldValidate 1 Edge.global_form)
  = inl (PathNotFound "App.person.nameshouldValidate")
  ∧ post (Widget._setupShouldValidate 1 Edge.global_form) = Edge.global_form.
Proof. split; vm_compute; reflexivity. Qed.

(** Focus received, then lost, on the sample field: the flag of [name]
    appears on the controller, and not before the field is left. *)
Example focus_in_then_out :
  Widget.get_key (post (Widget.focusIn None 1 Sample.form)) (JRef 3)
    (shouldValidate_key "name") = JUndefined
  ∧ Widget.get_key
      (post (Widget.focusOut 1 (post (Widget.focusIn None 1 Sample.form))))
      (JRef 3) (shouldValidate_key "name") = JBool true.
Proof. split; vm_compute; reflexivity. Qed.

(** A field whose two flags are set already runs its observer no more: on
    [Edge.rebound_form], focus received and lost again writes nothing, and
    the attribute the field is now bound to stays unflagged. *)
Example rebound_view_not_flagged :
  foldl (focus_step None 1) Edge.rebound_form [Entered; Left]
  = Edge.rebound_form
  ∧ Widget.get_key Edge.rebound_form (JRef 3) (shouldValidate_key "email")
    = JUndefined.
Proof. split; vm_compute; reflexivity. Qed.

(** The flag set by the view reaches the engine: on the wired sample object,
    the write of [nameshouldValidate] runs the focus-out observer, which
    re-validates the unset [name]. *)
Example flag_fires_focus_out_observer :
  (shouldValidate_key "name", FocusOut)
  ∈ observers (post (init Sample.person))
  ∧ emitted (Ember_set Sample.getValidator (shouldValidate_key "name")
               eq_refl (JBool true) (post (init Sample.person)))
    = [PropertyWillChange "validationErrors"; ErrorsRemoved "name";
       ErrorsAdded "name" "is required";
       PropertyDidChange "validationErrors"].
Proof.
  split.
  - apply (focus_out_observer_registered Sample.person
             [("name", [("presence", JBool true)])] "name");
      try reflexivity.
    by apply list_elem_of_singleton.
  - vm_compute. reflexivity.
Qed.

Lemma wiring_installs_at_most_one_witness :
  observers Sample.person = []
  ∧ (observer_count
       (foldl rewire Sample.person
          [(Some [("name", [("presence", JBool true)])], true, true);
           (Some [("name", [("presence", JBool true)])], true, true)])
       "name" ValueChange ≤ 1)%nat
  ∧ (observer_count
       (foldl rewire Sample.person
          [(Some [("name", [("presence", JBool true)])], true, true);
           (Some [("name", [("presence", JBool true)])], true, true)])
       (shouldValidate_key "name") FocusOut ≤ 1)%nat.
Proof.
  split; [reflexivity|].
  apply (wiring_installs_at_most_one Sample.person
           [(Some [("name", [("presence", JBool true)])], true, true);
            (Some [("name", [("presence", JBool true)])], true, true)]
           "name").
  reflexivity.
Defined.

(** Wiring the sample object twice leaves exactly the two observers of
    [name]. *)
Example rewire_twice :
  observers
    (foldl rewire Sample.person
       [(Some [("name", [("presence", JBool true)])], true, true);
        (Some [("name", [("presence", JBool true)])], true, true)])
  = [("name", ValueChange); (shouldValidate_key "name", FocusOut)].
Proof. vm_compute. reflexivity. Qed.

(** * Further properties of the mixin *)

Section ValidateMore.
Context {options : Type}.
Variable getValidator : registry options.
Implicit Types s : Obj options.

(** X1. A full pass, completed or aborted, marks the object as validated
    once and changes nothing else of it but the Error Collection: the
    [validations] hash, the configuration flags, the attribute values and
    flags, and the observers are as before. *)
Theorem validate_changes_only_errors_and_mark s :
  let r := validate getValidator s in
  _didValidateAllOnce (post r) = true
  ∧ validations (post r) = validations s
  ∧ validateOnValueChange (post r) = validateOnValueChange s
  ∧ validateOnFocusOut (post r) = validateOnFocusOut s
  ∧ props (post r) = props s
  ∧ observers (post r) = observers s.
Proof.
  intros r.
  destruct (validate_spec getValidator s) as (body & _ & _ & Hpost & _).
  fold r in Hpost. rewrite Hpost. by repeat split.
Qed.

(** X2. On an object that declares no attribute ([validations] unset or
    empty) a full pass empties the Error Collection, whatever it held, and
    returns [true], inside one notification bracket. *)
Theorem validate_without_attributes s :
  validations_keys s = [] →
  validate getValidator s
  = Res (inr true)
        (set_validationErrors ∅ (set_didValidateAllOnce true s))
        [PropertyWillChange "validationErrors"; ErrorsCleared;
         PropertyDidChange "validationErrors"].
Proof.
  intros Hkeys. unfold validate. rewrite run_modify, run_get_this. cbn zeta.
  change (validations_keys (set_didValidateAllOnce true s))
    with (validations_keys s). rewrite Hkeys.
  reflexivity.
Qed.

(** X5. [validateProperty], completed or aborted, changes nothing of the
    object but the Error Collection; in particular it does not mark the
    object as validated once. *)
Theorem validateProperty_changes_only_errors a s :
  let r := validateProperty getValidator a s in
  _didValidateAllOnce (post r) = _didValidateAllOnce s
  ∧ validations (post r) = validations s
  ∧ validateOnValueChange (post r) = validateOnValueChange s
  ∧ validateOnFocusOut (post r) = validateOnFocusOut s
  ∧ props (post r) = props s
  ∧ observers (post r) = observers s.
Proof.
  intros r. subst r. rewrite tracked_validateProperty. by repeat split.
Qed.

(** X6. On an object whose [validations] is unset, [validateProperty(a)]
    throws a [TypeError] at [validations[a]]: by then it has sent the
    "about to change" notification and removed the errors of [a], and the
    "changed" notification is never sent. *)
Theorem validateProperty_without_validations a s :
  validations s = None →
  validateProperty getValidator a s
  = Res (inl TypeError)
        (set_validationErrors
           (ValidationErrors.remove a (validationErrors s)) s)
        [PropertyWillChange "validationErrors"; ErrorsRemoved a].
Proof.
  intros Hv.
  unfold validateProperty, _validateProperty. rewrite run_bind.
  cbn [propertyWillChange emit out post emitted app]. rewrite run_bind.
  rewrite run_bind. cbn [get_this out post emitted app]. rewrite run_bind.
  rewrite run_errors_remove. cbn [out post emitted app]. rewrite run_bind.
  rewrite Hv. reflexivity.
Qed.

End ValidateMore.

Lemma validate_without_attributes_witness :
  validate Sample.getValidator Edge.bare
  = Res (inr true)
        (set_validationErrors ∅ (set_didValidateAllOnce true Edge.bare))
        [PropertyWillChange "validationErrors"; ErrorsCleared;
         PropertyDidChange "validationErrors"].
Proof.
  apply (validate_without_attributes Sample.getValidator Edge.bare).
  reflexivity.
Defined.

Lemma validateProperty_without_validations_witness :
  validateProperty Sample.getValidator "name" Edge.bare
  = Res (inl TypeError)
        (set_validationErrors
           (ValidationErrors.remove "name" (validationErrors Edge.bare))
           Edge.bare)
        [PropertyWillChange "validationErrors"; ErrorsRemoved "name"].
Proof.
  apply (validateProperty_without_validations Sample.getValidator "name"
           Edge.bare).
  reflexivity.
Defined.

Section Aborts.
Context {options : Type}.
Variable getValidator : registry options.
Implicit Types s : Obj options.

(** The loop over the rules either runs to its end, all rules resolving, or
    throws at a rule that names no validator. *)
Lemma rules_loop_cases a (rules : list (string * options)) s :
  (out (for_in rules (apply_rule getValidator a) s) = inr tt
   ∧ ∀ rule, rule ∈ rules → is_Some (getValidator rule.1 rule.2))
  ∨ (∃ rule, rule ∈ rules ∧ getValidator rule.1 rule.2 = None
       ∧ out (for_in rules (apply_rule getValidator a) s)
         = inl (NoValidatorFound rule.1)).
Proof.
  revert s. induction rules as [|rule rules IH]; intros s.
  - left. split; [done|]. intros rule Hin. by apply elem_of_nil in Hin.
  - rewrite for_in_cons, run_bind, run_apply_rule.
    destruct (getValidator rule.1 rule.2) as [v|] eqn:Hv; cbn [out post emitted].
    + match goal with |- context [for_in rules _ ?s'] =>
        destruct (IH s') as [[Hout Hall]|(rule' & Hin & Hnone & Hout)] end.
      * left. split; [done|]. intros rule' [->|Hin]%elem_of_cons; eauto.
      * right. exists rule'. split; [by right|done].
    + right. exists rule. split; [by left|done].
Qed.

Lemma _validateProperty_cases a s :
  is_Some (validations s) →
  ((∃ b, out (_validateProperty getValidator a s) = inr b)
   ∧ ∀ rule, rule ∈ rules_of s a → is_Some (getValidator rule.1 rule.2))
  ∨ (∃ rule, rule ∈ rules_of s a ∧ getValidator rule.1 rule.2 = None
       ∧ out (_validateProperty getValidator a s)
         = inl (NoValidatorFound rule.1)).
Proof.
  intros [v Hv]. unfold _validateProperty, rules_of. rewrite run_bind.
  cbn [get_this out post emitted]. rewrite run_bind.
  rewrite run_errors_remove. cbn [out post emitted app]. rewrite run_bind.
  rewrite Hv. cbn [mret M_ret out post emitted app]. rewrite run_bind.
  match goal with |- context [for_in ?rules _ ?s'] =>
    destruct (rules_loop_cases a rules s')
      as [[Hout Hall]|(rule & Hin & Hnone & Hout)] end; rewrite Hout.
  - left. split; [by eexists|done].
  - right. by exists rule.
Qed.

(** Under the validator contract a re-validation of [a] only removes and
    adds entries of [a]. *)
Lemma validateProperty_touches a s :
  validator_contract getValidator →
  Forall (only_touches a) (emitted (validateProperty getValidator a s)).
Proof.
  intros Hc.
  destruct (validateProperty_spec getValidator a s) as (Hem & _ & _).
  cbn zeta in Hem. rewrite Hem.
  constructor; [done|]. constructor; [done|]. apply Forall_app. split.
  - apply Forall_fmap.
    eapply Forall_impl; [apply (rule_reports_contract getValidator a _ _ Hc)|].
    intros km Hkm. exact Hkm.
  - destruct (out _); [constructor|]. constructor; [done|constructor].
Qed.

(** A re-validation of [a] depends on the Error Collection only through
    what it holds for the other attributes. *)
Lemma validateProperty_congr a (e1 e2 : ValidationErrors.t) s :
  ValidationErrors.remove a e1 = ValidationErrors.remove a e2 →
  validateProperty getValidator a (set_validationErrors e1 s)
  = validateProperty getValidator a (set_validationErrors e2 s).
Proof.
  intros He. unfold validateProperty, _validateProperty.
  rewrite !(run_bind (propertyWillChange _)).
  cbn [propertyWillChange emit out post emitted app].
  rewrite !(run_bind (get_this ≫= _)), !run_get_this.
  rewrite !(run_bind (errors_remove a)), !run_errors_remove.
  cbn [out post emitted validationErrors validations set_validationErrors].
  by rewrite He.
Qed.

(** X7. When a rule configured for [a] names no validator,
    [validateProperty(a)] throws the registry's "no validator found" error
    for such a rule; the reports of the rules before it have been added, and
    the "changed" notification is not sent. *)
Theorem validateProperty_unknown_rule a s rule :
  rule ∈ rules_of s a →
  getValidator rule.1 rule.2 = None →
  let r := validateProperty getValidator a s in
  ∃ rule', rule' ∈ rules_of s a ∧ getValidator rule'.1 rule'.2 = None
    ∧ out r = inl (NoValidatorFound rule'.1)
    ∧ emitted r
      = PropertyWillChange "validationErrors" :: ErrorsRemoved a
        :: map added (reports_of getValidator a s).
Proof.
  intros Hin Hnone r.
  assert (is_Some (validations s)) as Hv.
  { unfold rules_of in Hin. destruct (validations s); [by eexists|].
    by apply elem_of_nil in Hin. }
  destruct (validateProperty_spec getValidator a s) as (Hem & _ & _).
  fold r in Hem.
  assert (∃ rule', rule' ∈ rules_of s a ∧ getValidator rule'.1 rule'.2 = None
            ∧ out r = inl (NoValidatorFound rule'.1))
    as (rule' & Hin' & Hnone' & Hout).
  { destruct (_validateProperty_cases a s Hv)
      as [[_ Hall]|(rule' & Hin' & Hnone' & Hout)].
    - destruct (Hall rule Hin) as [v Hsome]. congruence.
    - exists rule'. split; [done|]. split; [done|].
      subst r. unfold validateProperty. rewrite run_bind.
      cbn [propertyWillChange emit out post emitted app]. rewrite run_bind.
      by rewrite Hout. }
  exists rule'. rewrite Hout in Hem. by rewrite app_nil_r in Hem.
Qed.

(** X8. Under the validator contract, calling [validateProperty(a)] again
    on the object a first call left repeats the first call: same result,
    same Error Collection, same notifications. *)
Theorem validateProperty_twice a s :
  validator_contract getValidator →
  let r1 := validateProperty getValidator a s in
  validateProperty getValidator a (post r1) = r1.
Proof.
  intros Hc r1. subst r1. rewrite tracked_validateProperty.
  rewrite <- (set_validationErrors_same s) at 3.
  apply validateProperty_congr.
  apply map_eq. intros b. unfold ValidationErrors.remove.
  destruct (decide (a = b)) as [->|Hne].
  - by rewrite !lookup_delete_eq.
  - rewrite !lookup_delete_ne by done.
    apply (replay_all_frame a b); [done|].
    by apply validateProperty_touches.
Qed.

End Aborts.

Section FullPass.
Context {options : Type}.
Variable getValidator : registry options.
Implicit Types s : Obj options.

(** A full pass, in terms of its loop over the attributes. *)
Lemma validate_run s :
  let loop := for_in (validations_keys s) (λ attribute,
                _validateProperty getValidator attribute ;; mret tt)
                (set_validationErrors ∅ (set_didValidateAllOnce true s)) in
  validate getValidator s
  = Res (match out loop with
         | inl err => inl err
         | inr _ => inr (isValid (post loop))
         end)
        (post loop)
        (PropertyWillChange "validationErrors" :: ErrorsCleared
         :: emitted loop
         ++ match out loop with
            | inl _ => []
            | inr _ => [PropertyDidChange "validationErrors"]
            end).
Proof.
  cbn zeta. unfold validate. rewrite run_modify, run_get_this. cbn zeta.
  rewrite run_bind.
  cbn [propertyWillChange emit out post emitted app]. rewrite run_bind.
  rewrite run_errors_clear. cbn [out post emitted app]. rewrite run_bind.
  change (validations_keys (set_didValidateAllOnce true s))
    with (validations_keys s).
  destruct (out (for_in _ _ _)) as [err|[]]; cbn [out post emitted app].
  - by rewrite app_nil_r.
  - reflexivity.
Qed.

(** The loop over the attributes either runs to its end or throws the
    registry's error for a rule that names no validator. *)
Lemma attributes_loop_cases (keys : list string) s :
  is_Some (validations s) →
  (out (for_in keys (λ attribute,
          _validateProperty getValidator attribute ;; mret tt) s) = inr tt
   ∧ ∀ a rule, a ∈ keys → rule ∈ rules_of s a →
               is_Some (getValidator rule.1 rule.2))
  ∨ (∃ name opts, getValidator name opts = None
       ∧ out (for_in keys (λ attribute,
                _validateProperty getValidator attribute ;; mret tt) s)
         = inl (NoValidatorFound name)).
Proof.
  revert s. induction keys as [|k keys IH]; intros s Hv.
  - left. split; [done|]. intros a rule Ha. by apply elem_of_nil in Ha.
  - rewrite for_in_cons, run_bind, run_bind.
    pose proof (tracked__validateProperty getValidator k s) as Hpost.
    destruct (_validateProperty_cases getValidator k s Hv)
      as [[[b Hout] Hall]|(rule & Hin & Hnone & Hout)]; rewrite Hout;
      cbn [out post emitted mret M_ret].
    + match goal with |- context [for_in keys _ ?s'] =>
        destruct (IH s') as [[Hout' Hall']|(name & opts & Hnone & Hout')] end.
      * by rewrite Hpost.
      * left. split; [done|].
        intros a rule [->|Ha]%elem_of_cons Hrule; [by apply Hall|].
        apply (Hall' a rule Ha). by rewrite Hpost.
      * right. by exists name, opts.
    + right. by exists rule.1, rule.2.
Qed.

(** Under the validator contract the loop over [keys] only removes and adds
    entries of attributes among [keys]. *)
Lemma attributes_loop_touches (keys : list string) s :
  validator_contract getValidator →
  Forall (λ ev, ∃ a, a ∈ keys ∧ is_notification ev = false
                     ∧ only_touches a ev)
    (emitted (for_in keys (λ attribute,
                _validateProperty getValidator attribute ;; mret tt) s)).
Proof.
  intros Hc. revert s. induction keys as [|k keys IH]; intros s.
  - constructor.
  - rewrite for_in_cons, run_bind, run_bind.
    destruct (_validateProperty_spec getValidator k s) as (Hem & _ & _).
    cbn zeta in Hem.
    assert (Forall (λ ev, ∃ a, a ∈ k :: keys ∧ is_notification ev = false
                               ∧ only_touches a ev)
              (emitted (_validateProperty getValidator k s))) as Hfirst.
    { rewrite Hem. constructor.
      - exists k. split; [by left|done].
      - apply Forall_fmap.
        eapply Forall_impl;
          [apply (rule_reports_contract getValidator k _ _ Hc)|].
        intros km Hkm. exists k. split; [by left|done]. }
    destruct (out (_validateProperty getValidator k s)) as [err|b];
      cbn [out post emitted mret M_ret]; [done|].
    rewrite app_nil_r. apply Forall_app. split; [done|].
    eapply Forall_impl; [apply IH|]. intros ev (a & Ha & Hev).
    exists a. split; [by right|done].
Qed.

Lemma replay_all_outside (keys : list string) b evs (e : ValidationErrors.t) :
  b ∉ keys →
  Forall (λ ev, ∃ a, a ∈ keys ∧ is_notification ev = false
                     ∧ only_touches a ev) evs →
  replay_all evs e !! b = e !! b.
Proof.
  intros Hb Hevs. revert e.
  induction Hevs as [|ev evs (a & Ha & _ & Hev) _ IH]; intros e; [done|].
  cbn [replay_all foldl]. fold (replay_all evs (replay e ev)). rewrite IH.
  assert (a ≠ b) as Hne by (by intros ->).
  destruct ev; cbn in Hev |- *; subst;
    auto using lookup_add_ne, lookup_remove_ne; done.
Qed.

(** X3. Under the validator contract, after a full pass, completed or
    aborted, the Error Collection holds no entry for an attribute that
    [validations] does not declare: stale errors do not outlive the pass. *)
Theorem validate_drops_undeclared s b :
  validator_contract getValidator →
  b ∉ validations_keys s →
  validationErrors (post (validate getValidator s)) !! b = None.
Proof.
  intros Hc Hb. rewrite validate_run. cbn [post].
  match goal with |- context [for_in ?keys ?body ?s'] =>
    pose proof (attributes_loop_touches keys s' Hc) as Htouch;
    destruct (attributes_loop_spec getValidator keys s') as (_ & Hpost & _) end.
  cbn zeta in Hpost. rewrite Hpost.
  cbn [validationErrors set_validationErrors].
  by rewrite (replay_all_outside (validations_keys s) b).
Qed.

(** X4. When a rule of a declared attribute names no validator, a full pass
    throws the registry's "no validator found" error; the object is marked
    as validated once all the same, and the "changed" notification is not
    sent. *)
Theorem validate_aborts_on_unknown_rule s a rule :
  a ∈ validations_keys s →
  rule ∈ rules_of s a →
  getValidator rule.1 rule.2 = None →
  let r := validate getValidator s in
  (∃ name opts, getValidator name opts = None
     ∧ out r = inl (NoValidatorFound name))
  ∧ (PropertyDidChange "validationErrors" ∉ emitted r)
  ∧ _didValidateAllOnce (post r) = true.
Proof.
  intros Ha Hin Hnone r.
  assert (is_Some (validations s)) as Hv.
  { unfold rules_of in Hin. destruct (validations s); [by eexists|].
    by apply elem_of_nil in Hin. }
  subst r. rewrite validate_run.
  match goal with |- context [for_in ?keys ?body ?s'] =>
    destruct (attributes_loop_spec getValidator keys s') as (Hshape & Hpost & _);
    destruct (attributes_loop_cases keys s' Hv)
      as [[_ Hall]|(name & opts & Hnone' & Hout)] end.
  { destruct (Hall a rule Ha Hin) as [v Hsome]. congruence. }
  cbn zeta in Hshape, Hpost. rewrite Hout. cbn [out post emitted].
  split; [by exists name, opts|].
  split; [|by rewrite Hpost].
  rewrite app_nil_r. intros [Heq|[Heq|Hbody]%elem_of_cons]%elem_of_cons;
    [done|done|].
  rewrite Forall_forall in Hshape. by specialize (Hshape _ Hbody).
Qed.

End FullPass.

Lemma edge_misconfigured_rule :
  ("unknown", JBool true) ∈ rules_of Edge.misconfigured "name"
  ∧ Sample.getValidator "unknown" (JBool true) = None.
Proof. split; [|reflexivity]. right. left. Qed.

Lemma validateProperty_unknown_rule_witness :
  ∃ rule', rule' ∈ rules_of Edge.misconfigured "name"
    ∧ Sample.getValidator rule'.1 rule'.2 = None
    ∧ out (validateProperty Sample.getValidator "name" Edge.misconfigured)
      = inl (NoValidatorFound rule'.1)
    ∧ emitted (validateProperty Sample.getValidator "name" Edge.misconfigured)
      = PropertyWillChange "validationErrors" :: ErrorsRemoved "name"
        :: map added (reports_of Sample.getValidator "name" Edge.misconfigured).
Proof.
  apply (validateProperty_unknown_rule Sample.getValidator "name"
           Edge.misconfigured ("unknown", JBool true));
    apply edge_misconfigured_rule.
Defined.

Lemma validateProperty_twice_witness :
  validateProperty Sample.getValidator "name"
    (post (validateProperty Sample.getValidator "name" Sample.person))
  = validateProperty Sample.getValidator "name" Sample.person.
Proof.
  apply (validateProperty_twice Sample.getValidator "name" Sample.person).
  apply sample_contract.
Defined.

Lemma validate_drops_undeclared_witness :
  validationErrors
    (post (validate Sample.getValidator
             (set_validationErrors
                (ValidationErrors.add "age" "is stale" ∅) Sample.person)))
  !! "age" = None.
Proof.
  apply (validate_drops_undeclared Sample.getValidator
           (set_validationErrors
              (ValidationErrors.add "age" "is stale" ∅) Sample.person)
           "age").
  - apply sample_contract.
  - intros Hin. apply list_elem_of_singleton in Hin. discriminate Hin.
Defined.

Lemma validate_aborts_on_unknown_rule_witness :
  (∃ name opts, Sample.getValidator name opts = None
     ∧ out (validate Sample.getValidator Edge.misconfigured)
       = inl (NoValidatorFound name))
  ∧ (PropertyDidChange "validationErrors"
     ∉ emitted (validate Sample.getValidator Edge.misconfigured))
  ∧ _didValidateAllOnce (post (validate Sample.getValidator Edge.misconfigured))
    = true.
Proof.
  apply (validate_aborts_on_unknown_rule Sample.getValidator
           Edge.misconfigured "name" ("unknown", JBool true)).
  - by apply list_elem_of_singleton.
  - apply edge_misconfigured_rule.
  - reflexivity.
Defined.

(** * Further properties of the wiring step *)

Section WiringMore.
Context {options : Type}.
Implicit Types s : Obj options.

(** One iteration overwrites no property that holds a truthy value and
    writes no property that is not a handle. *)
Lemma wire_value_change_props s p k :
  truthy (prop (props s) k) = true
  ∨ (∀ q, k ≠ value_change_handle q ∧ k ≠ focus_out_handle q) →
  props (wire_value_change s p) !! k = props s !! k.
Proof.
  intros Hk. unfold wire_value_change.
  destruct (truthy (prop (props s) (value_change_handle p))) eqn:Ht;
    cbn [negb]; [done|].
  cbn [props set_prop push_observer]. apply lookup_insert_ne. intros <-.
  destruct Hk as [Hk|Hk]; [congruence | by destruct (Hk p)].
Qed.

Lemma wire_focus_out_props s p k :
  truthy (prop (props s) k) = true
  ∨ (∀ q, k ≠ value_change_handle q ∧ k ≠ focus_out_handle q) →
  props (wire_focus_out s p) !! k = props s !! k.
Proof.
  intros Hk. unfold wire_focus_out.
  destruct (truthy (prop (props s) (focus_out_handle p))) eqn:Ht;
    cbn [negb]; [done|].
  cbn [props set_prop push_observer]. apply lookup_insert_ne. intros <-.
  destruct Hk as [Hk|Hk]; [congruence | by destruct (Hk p)].
Qed.

Lemma wire_step_props onValueChange onFocusOut s p k :
  truthy (prop (props s) k) = true
  ∨ (∀ q, k ≠ value_change_handle q ∧ k ≠ focus_out_handle q) →
  props (wire_step onValueChange onFocusOut s p) !! k = props s !! k.
Proof.
  intros Hk. unfold wire_step.
  set (s1 := if onValueChange then wire_value_change s p else s).
  assert (props s1 !! k = props s !! k) as H1.
  { subst s1. destruct onValueChange; [by apply wire_value_change_props|done]. }
  destruct onFocusOut; [|done].
  rewrite wire_focus_out_props; [done|].
  destruct Hk as [Hk|Hk]; [left|by right]. unfold prop in *. by rewrite H1.
Qed.

(** It changes nothing but the observers and the handles. *)
Lemma wire_step_fields onValueChange onFocusOut s p :
  let s' := wire_step onValueChange onFocusOut s p in
  validations s' = validations s
  ∧ validationErrors s' = validationErrors s
  ∧ validateOnValueChange s' = validateOnValueChange s
  ∧ validateOnFocusOut s' = validateOnFocusOut s
  ∧ _didValidateAllOnce s' = _didValidateAllOnce s.
Proof.
  cbn zeta. unfold wire_step, wire_value_change, wire_focus_out.
  destruct onValueChange, onFocusOut;
    repeat match goal with
      | |- context [if negb ?b then _ else _] => destruct b; cbn [negb]
      end; by repeat split.
Qed.

Lemma wire_foldl_frame onValueChange onFocusOut (keys : list string) s :
  let s' := foldl (wire_step onValueChange onFocusOut) s keys in
  validations s' = validations s
  ∧ validationErrors s' = validationErrors s
  ∧ validateOnValueChange s' = validateOnValueChange s
  ∧ validateOnFocusOut s' = validateOnFocusOut s
  ∧ _didValidateAllOnce s' = _didValidateAllOnce s
  ∧ (∀ k, truthy (prop (props s) k) = true → props s' !! k = props s !! k)
  ∧ (∀ k, (∀ q, k ≠ value_change_handle q ∧ k ≠ focus_out_handle q) →
          props s' !! k = props s !! k).
Proof.
  revert s. induction keys as [|p keys IH]; intros s; [by repeat split|].
  cbn zeta. cbn [foldl].
  destruct (IH (wire_step onValueChange onFocusOut s p))
    as (H1 & H2 & H3 & H4 & H5 & H6 & H7).
  destruct (wire_step_fields onValueChange onFocusOut s p)
    as (G1 & G2 & G3 & G4 & G5).
  cbn zeta in *.
  repeat split; try congruence.
  - intros k Hk.
    pose proof (wire_step_props onValueChange onFocusOut s p k
                  (or_introl Hk)) as G6.
    rewrite H6; [done|]. unfold prop. by rewrite G6.
  - intros k Hk. rewrite H7 by done. apply wire_step_props. by right.
Qed.

(** X9. The wiring step never fails, sends no notification and validates
    nothing: it leaves [validations], the Error Collection, the flags and the
    "validated once" mark as they were, keeps every observer there was,
    overwrites no property that holds a truthy value and writes no property
    other than an observer handle. *)
Theorem wiring_changes_only_observers s :
  let r := _setupAutoValidateObserves s in
  out r = inr tt ∧ emitted r = []
  ∧ validations (post r) = validations s
  ∧ validationErrors (post r) = validationErrors s
  ∧ _didValidateAllOnce (post r) = _didValidateAllOnce s
  ∧ (∀ ob, ob ∈ observers s → ob ∈ observers (post r))
  ∧ (∀ k, truthy (prop (props s) k) = true →
          props (post r) !! k = props s !! k)
  ∧ (∀ k, (∀ q, k ≠ value_change_handle q ∧ k ≠ focus_out_handle q) →
          props (post r) !! k = props s !! k).
Proof.
  cbn zeta. rewrite _setupAutoValidateObserves_run. cbn [out post emitted].
  destruct (wire_foldl_frame (validateOnValueChange s) (validateOnFocusOut s)
              (validations_keys s) s) as (H1 & H2 & _ & _ & H5 & H6 & H7).
  cbn zeta in *. repeat split; try done.
  intros ob Hob. by apply observers_foldl.
Qed.

(** A handle that is set stays set. *)
Lemma wire_step_keeps_handle onValueChange onFocusOut s p k :
  truthy (prop (props s) k) = true →
  truthy (prop (props (wire_step onValueChange onFocusOut s p)) k) = true.
Proof.
  intros Hk. unfold prop in *.
  by rewrite (wire_step_props onValueChange onFocusOut s p k (or_introl Hk)).
Qed.

Lemma wire_value_change_sets s p :
  truthy (prop (props (wire_value_change s p)) (value_change_handle p)) = true.
Proof.
  unfold wire_value_change.
  destruct (truthy (prop (props s) (value_change_handle p))) eqn:Ht;
    cbn [negb]; [done|].
  cbn [props set_prop push_observer]. unfold prop. by rewrite lookup_insert_eq.
Qed.

Lemma wire_focus_out_sets s p :
  truthy (prop (props (wire_focus_out s p)) (focus_out_handle p)) = true.
Proof.
  unfold wire_focus_out.
  destruct (truthy (prop (props s) (focus_out_handle p))) eqn:Ht;
    cbn [negb]; [done|].
  cbn [props set_prop push_observer]. unfold prop. by rewrite lookup_insert_eq.
Qed.

Lemma wire_step_sets_handles onValueChange onFocusOut s p :
  (onValueChange = true →
   truthy (prop (props (wire_step onValueChange onFocusOut s p))
             (value_change_handle p)) = true)
  ∧ (onFocusOut = true →
     truthy (prop (props (wire_step onValueChange onFocusOut s p))
               (focus_out_handle p)) = true).
Proof.
  unfold wire_step. split; intros ->.
  - pose proof (wire_value_change_sets s p) as Hset.
    destruct onFocusOut; [|done]. unfold prop in *.
    by rewrite wire_focus_out_props by (by left).
  - apply wire_focus_out_sets.
Qed.

Lemma wire_foldl_sets_handles onValueChange onFocusOut (keys : list string)
    s p :
  p ∈ keys →
  (onValueChange = true →
   truthy (prop (props (foldl (wire_step onValueChange onFocusOut) s keys))
             (value_change_handle p)) = true)
  ∧ (onFocusOut = true →
     truthy (prop (props (foldl (wire_step onValueChange onFocusOut) s keys))
               (focus_out_handle p)) = true).
Proof.
  assert (∀ keys s k, truthy (prop (props s) k) = true →
            truthy (prop (props (foldl (wire_step onValueChange onFocusOut)
                                   s keys)) k) = true) as Hkeep.
  { clear. intros keys. induction keys as [|q keys IH]; intros s k Hk; [done|].
    cbn [foldl]. by apply IH, wire_step_keeps_handle. }
  revert s. induction keys as [|q keys IH]; intros s Hp.
  - by apply elem_of_nil in Hp.
  - cbn [foldl]. destruct (decide (q = p)) as [->|Hne].
    + destruct (wire_step_sets_handles onValueChange onFocusOut s p)
        as [Hvc Hfo].
      split; intros Hflag; apply Hkeep; auto.
    + apply IH. apply elem_of_cons in Hp as [->|Hp]; done.
Qed.

(** With its handles set, an attribute is passed over. *)
Lemma wire_step_passes onValueChange onFocusOut s p :
  (onValueChange = true →
   truthy (prop (props s) (value_change_handle p)) = true) →
  (onFocusOut = true →
   truthy (prop (props s) (focus_out_handle p)) = true) →
  wire_step onValueChange onFocusOut s p = s.
Proof.
  intros Hvc Hfo. unfold wire_step, wire_value_change, wire_focus_out.
  destruct onValueChange, onFocusOut;
    rewrite ?Hvc, ?Hfo by done; cbn [negb]; rewrite ?Hfo by done; done.
Qed.

(** X10. Running the wiring step again, nothing else having changed, changes
    nothing: the object is the one the first run left, whatever the object
    the first run started from. *)
Theorem wiring_twice s :
  let s1 := post (_setupAutoValidateObserves s) in
  _setupAutoValidateObserves s1 = Res (inr tt) s1 [].
Proof.
  cbn zeta. rewrite !_setupAutoValidateObserves_run. cbn [post].
  set (vc := validateOnValueChange s). set (fo := validateOnFocusOut s).
  set (keys := validations_keys s).
  destruct (wire_foldl_frame vc fo keys s) as (H1 & _ & H3 & H4 & _).
  cbn zeta in *. rewrite H3, H4.
  assert (validations_keys (foldl (wire_step vc fo) s keys) = keys) as ->.
  { unfold validations_keys. by rewrite H1. }
  f_equal.
  assert (∀ keys' s', (∀ p, p ∈ keys' →
              (vc = true → truthy (prop (props s') (value_change_handle p)) = true)
              ∧ (fo = true → truthy (prop (props s') (focus_out_handle p)) = true)) →
            foldl (wire_step vc fo) s' keys' = s') as Hid.
  { intros keys'. induction keys' as [|p keys' IH]; intros s' Hall; [done|].
    cbn [foldl]. destruct (Hall p ltac:(by left)) as [Hvc Hfo].
    rewrite wire_step_passes by done. apply IH.
    intros q Hq. apply Hall. by right. }
  apply Hid. intros p Hp. by apply wire_foldl_sets_handles.
Qed.

(** The observers a wiring adds are those the flags enable, on the keys of
    the attributes it visits. *)
Lemma foldl_new_observers onValueChange onFocusOut (keys : list string) s
    key method :
  (key, method) ∈ observers (foldl (wire_step onValueChange onFocusOut) s keys) →
  (key, method) ∈ observers s
  ∨ match method with
    | ValueChange => onValueChange = true ∧ key ∈ keys
    | FocusOut => onFocusOut = true ∧ ∃ p, p ∈ keys ∧ key = shouldValidate_key p
    end.
Proof.
  revert s. induction keys as [|k keys IH]; intros s Hin; [by left|].
  cbn [foldl] in Hin. apply IH in Hin as [Hin|Hin].
  - unfold wire_step, wire_value_change, wire_focus_out in Hin.
    destruct onValueChange, onFocusOut;
      repeat match type of Hin with
        | context [if negb ?b then _ else _] => destruct b; cbn [negb] in Hin
        end; cbn [observers set_prop push_observer] in Hin;
      rewrite ?elem_of_app, ?list_elem_of_singleton in Hin;
      destruct_or?; simplify_eq; auto;
      right; (split; [done|]); first [by left | exists k; split; [by left|done]].
  - right. destruct method.
    + destruct Hin as [Hf Hin]. split; [done|by right].
    + destruct Hin as (Hf & p & Hp & ->). split; [done|].
      exists p. split; [by right|done].
Qed.

(** X11. Every observer the wiring step adds is of a kind whose flag is
    enabled and belongs to a declared attribute: a value-change observer on
    the attribute itself, a focus-out observer on its [shouldValidate] key.
    With both flags disabled it adds none. *)
Theorem wiring_respects_flags s key method :
  (key, method) ∈ observers (post (_setupAutoValidateObserves s)) →
  (key, method) ∈ observers s
  ∨ match method with
    | ValueChange =>
        validateOnValueChange s = true ∧ key ∈ validations_keys s
    | FocusOut =>
        validateOnFocusOut s = true
        ∧ ∃ p, p ∈ validations_keys s ∧ key = shouldValidate_key p
    end.
Proof.
  rewrite _setupAutoValidateObserves_run. cbn [post].
  apply foldl_new_observers.
Qed.

End WiringMore.

Lemma wiring_respects_flags_witness :
  ("name", ValueChange)
  ∈ observers (post (_setupAutoValidateObserves Sample.person))
  ∧ (("name", ValueChange) ∈ observers Sample.person
     ∨ (validateOnValueChange Sample.person = true
        ∧ "name" ∈ validations_keys Sample.person)).
Proof.
  assert (("name", ValueChange)
          ∈ observers (post (_setupAutoValidateObserves Sample.person)))
    as Hin.
  { replace (observers (post (_setupAutoValidateObserves Sample.person)))
      with [("name", ValueChange); (shouldValidate_key "name", FocusOut)]
      by (vm_compute; reflexivity).
    by left. }
  split; [done|].
  apply (wiring_respects_flags Sample.person "name" ValueChange Hin).
Defined.

Section Observed.
Context {options : Type}.
Variable getValidator : registry options.
Implicit Types s : Obj options.

Lemma count_one {A} `{EqDecision A} (l : list A) (x : A) :
  NoDup l → x ∈ l → length (filter (λ y, y = x) l) = 1.
Proof.
  intros Hnd Hin. rewrite (filter_unique (λ y, y = x) l x); try done.
Qed.

Lemma wired_fresh s : observers s = [] → wired s.
Proof.
  intros Hnone. split; [rewrite Hnone; constructor|].
  intros key method Hin. rewrite Hnone in Hin. by apply elem_of_nil in Hin.
Qed.

(** X12. On an object that had no observers and no handle set for [a],
    the wiring that follows an assignment of [validations] leaves a declared
    attribute [a] with exactly one value-change observer when
    [validateOnValueChange] is enabled and none when it is not, and with
    exactly one focus-out observer when [validateOnFocusOut] is enabled and
    none when it is not. *)
Theorem wiring_installs_exactly_one s0 v a :
  observers s0 = [] →
  truthy (prop (props s0) (value_change_handle a)) = false →
  truthy (prop (props s0) (focus_out_handle a)) = false →
  a ∈ v.*1 →
  let s := post (assign_validations (Some v) s0) in
  observer_count s a ValueChange
  = (if validateOnValueChange s0 then 1 else 0)
  ∧ observer_count s (shouldValidate_key a) FocusOut
    = (if validateOnFocusOut s0 then 1 else 0).
Proof.
  intros Hnone Hvch Hfoh Ha s.
  assert (observers s
          = observers (foldl (wire_step (validateOnValueChange s0)
                                (validateOnFocusOut s0))
                         (set_validations (Some v) s0) v.*1)) as Hs.
  { subst s. unfold assign_validations.
    by rewrite run_modify, _setupAutoValidateObserves_run. }
  assert (NoDup (observers s)) as Hnd.
  { rewrite Hs. apply wired_foldl. by apply wired_fresh. }
  assert (∀ key method, (key, method) ∈ observers s →
            match method with
            | ValueChange => validateOnValueChange s0 = true
            | FocusOut => validateOnFocusOut s0 = true
            end) as Hkind.
  { intros key method Hin. rewrite Hs in Hin.
    apply foldl_new_observers in Hin as [Hin|Hin].
    - cbn [observers set_validations] in Hin. rewrite Hnone in Hin.
      by apply elem_of_nil in Hin.
    - destruct method; by destruct Hin. }
  unfold observer_count. split.
  - destruct (validateOnValueChange s0) eqn:Hflag.
    + apply count_one; [done|]. rewrite Hs.
      apply foldl_registers; [|done]. cbn [props set_validations]. congruence.
    + rewrite filter_none; [done|]. intros ob Hob ->.
      by specialize (Hkind _ _ Hob).
  - destruct (validateOnFocusOut s0) eqn:Hflag.
    + apply count_one; [done|]. by apply focus_out_observer_registered.
    + rewrite filter_none; [done|]. intros ob Hob ->.
      by specialize (Hkind _ _ Hob).
Qed.

(** X14. After the wiring of an object that had no observers, writing a
    property that is not a member of the mixin and is neither a declared
    attribute nor the [shouldValidate] key of one runs no observer: the
    write is all that happens, and nothing is validated. *)
Theorem undeclared_write_only_writes s0 v key
    (Hkey : mixin_member key = false) x :
  observers s0 = [] →
  key ∉ v.*1 →
  (∀ p, p ∈ v.*1 → key ≠ shouldValidate_key p) →
  let s := post (assign_validations (Some v) s0) in
  Ember_set getValidator key Hkey x s = Res (inr tt) (set_prop key x s) [].
Proof.
  intros Hnone Hundeclared Hflag s.
  assert (filter (λ ob, ob.1 = key) (observers s) = []) as Hobs.
  { apply filter_none. intros [k m] Hin Hk. cbn [fst] in Hk. subst k s.
    unfold assign_validations in Hin.
    rewrite run_modify, _setupAutoValidateObserves_run in Hin.
    cbn [post] in Hin.
    apply foldl_observers_from in Hin as [Hin|Hin].
    - cbn [observers set_validations] in Hin. rewrite Hnone in Hin.
      by apply elem_of_nil in Hin.
    - destruct m; [done|]. destruct Hin as (_ & p & Hp & Heq).
      by apply (Hflag p). }
  unfold Ember_set. rewrite run_get_this, Hobs.
  by rewrite bool_decide_eq_false_2 by (by intros Hne).
Qed.

(** X13. After the wiring, with [validateOnFocusOut] enabled, of an object
    that had no observers, for a declared attribute [a] whose name holds no
    occurrence of [shouldValidate] and whose [shouldValidate] key is not
    itself observed for value changes: a write that changes [a]'s
    [shouldValidate] flag re-validates [a] through [validateProperty] when
    the value written is truthy or a full pass has run, and does nothing
    more than the write otherwise. *)
Theorem focus_flag_write_revalidates s0 v a
    (Hkey : mixin_member (shouldValidate_key a) = false) x :
  observers s0 = [] →
  truthy (prop (props s0) (focus_out_handle a)) = false →
  validateOnFocusOut s0 = true →
  a ∈ v.*1 →
  contains "shouldValidate" a = false →
  (validateOnValueChange s0 = true → shouldValidate_key a ∉ v.*1) →
  let s := post (assign_validations (Some v) s0) in
  x ≠ prop (props s) (shouldValidate_key a) →
  Ember_set getValidator (shouldValidate_key a) Hkey x s
  = (if truthy x || _didValidateAllOnce s
     then validateProperty getValidator a ;; mret tt
     else mret tt) (set_prop (shouldValidate_key a) x s).
Proof.
  intros Hnone Hhandle Hfo Ha Hplain Hvc s Hx.
  assert (filter (λ ob, ob.1 = shouldValidate_key a) (observers s)
          = [(shouldValidate_key a, FocusOut)]) as Hobs.
  { apply filter_unique.
    - subst s. unfold assign_validations.
      rewrite run_modify, _setupAutoValidateObserves_run. cbn [post].
      apply wired_foldl. by apply wired_fresh.
    - by apply focus_out_observer_registered.
    - done.
    - intros [k m] Hin Hk. cbn [fst] in Hk. subst k s.
      unfold assign_validations in Hin.
      rewrite run_modify, _setupAutoValidateObserves_run in Hin.
      cbn [post] in Hin.
      apply foldl_new_observers in Hin as [Hin|Hin].
      + cbn [observers set_validations] in Hin. rewrite Hnone in Hin.
        by apply elem_of_nil in Hin.
      + destruct m; [|done]. destruct Hin as [Hflag Hin].
        cbn [validateOnValueChange set_validations] in Hflag.
        by destruct (Hvc Hflag). }
  unfold Ember_set. rewrite run_get_this, Hobs.
  rewrite bool_decide_eq_true_2 by done.
  destruct (decide (x = prop (props s) (shouldValidate_key a))) as [Heq|_];
    [done|].
  rewrite run_modify. unfold notify. rewrite run_get_this.
  cbn [observers set_prop]. rewrite Hobs.
  rewrite for_in_cons. cbn [for_in fst snd call_handler].
  rewrite run_then_ret, focus_out_plain_name by done.
  unfold should_validate, prop. cbn [props set_prop _didValidateAllOnce].
  by rewrite lookup_insert_eq.
Qed.

End Observed.

Lemma wiring_installs_exactly_one_witness :
  observer_count
    (post (assign_validations (Some [("name", [("presence", JBool true)])])
             Sample.person)) "name" ValueChange
  = (if validateOnValueChange Sample.person then 1 else 0)
  ∧ observer_count
      (post (assign_validations (Some [("name", [("presence", JBool true)])])
               Sample.person)) (shouldValidate_key "name") FocusOut
    = (if validateOnFocusOut Sample.person then 1 else 0).
Proof.
  apply (wiring_installs_exactly_one Sample.person
           [("name", [("presence", JBool true)])] "name");
    try reflexivity.
  by apply list_elem_of_singleton.
Defined.

Lemma undeclared_write_only_writes_witness :
  Ember_set Sample.getValidator "age" eq_refl (JNum 3)
    (post (assign_validations (Some [("name", [("presence", JBool true)])])
             Sample.person))
  = Res (inr tt)
        (set_prop "age" (JNum 3)
           (post (assign_validations
                    (Some [("name", [("presence", JBool true)])])
                    Sample.person)))
        [].
Proof.
  apply (undeclared_write_only_writes Sample.getValidator Sample.person
           [("name", [("presence", JBool true)])] "age" eq_refl (JNum 3)).
  - reflexivity.
  - intros Hin. apply list_elem_of_singleton in Hin. discriminate Hin.
  - intros p Hp. apply list_elem_of_singleton in Hp as ->. discriminate.
Defined.

Lemma focus_flag_write_revalidates_witness :
  Ember_set Sample.getValidator (shouldValidate_key "name") eq_refl
    (JBool true)
    (post (assign_validations (Some [("name", [("presence", JBool true)])])
             Sample.person))
  = (if truthy (JBool true)
        || _didValidateAllOnce
             (post (assign_validations
                      (Some [("name", [("presence", JBool true)])])
                      Sample.person))
     then validateProperty Sample.getValidator "name" ;; mret tt
     else mret tt)
      (set_prop (shouldValidate_key "name") (JBool true)
         (post (assign_validations
                  (Some [("name", [("presence", JBool true)])])
                  Sample.person))).
Proof.
  apply (focus_flag_write_revalidates Sample.getValidator Sample.person
           [("name", [("presence", JBool true)])] "name" eq_refl (JBool true));
    try reflexivity.
  - by apply list_elem_of_singleton.
  - intros _ Hin. apply list_elem_of_singleton in Hin. discriminate Hin.
  - discriminate.
Defined.

(** * Further properties of the focus-out observer *)

Lemma replace_unfold (p r s : string) :
  replace p r s
  = if String.prefix p s then r +:+ string_drop (String.length p) s
    else match s with
         | EmptyString => EmptyString
         | String c s' => String c (replace p r s')
         end.
Proof. by destruct s. Qed.

(** Removing the first occurrence of a border-free pattern: when [u] holds
    no occurrence, the one that follows [u] goes. *)
Lemma replace_first_occurrence (p u t : string) :
  border_free p = true → contains p u = false →
  replace p EmptyString (u +:+ p +:+ t) = u +:+ t.
Proof.
  intros Hbf. induction u as [|c u IH]; intros Hu.
  - rewrite !append_nil_l, replace_unfold, prefix_refl_append.
    by rewrite string_drop_append.
  - cbn [contains] in Hu. apply orb_false_iff in Hu as [Hpre Hrest].
    assert (String.prefix p (String c u +:+ p +:+ t) = false) as Hno.
    { destruct (String.prefix p (String c u +:+ p +:+ t)) eqn:Hp; [|done].
      rewrite <- append_assoc in Hp.
      apply prefix_append_short in Hp.
      - by rewrite prefix_append_border_free in Hp.
      - rewrite length_append. lia. }
    rewrite replace_unfold, Hno. rewrite !append_cons. by rewrite IH.
Qed.

(** X15. For an attribute whose name holds an occurrence of
    [shouldValidate], say [u ++ "shouldValidate" ++ w] with none in [u], the
    focus-out observer fired on the attribute's key re-validates, when its
    condition holds, the attribute [u ++ w ++ "shouldValidate"]: the first
    occurrence is removed from the key and the last one stays. *)
Theorem focus_out_removes_first_occurrence {options}
    (getValidator : registry options) (u w : string) (s : Obj options) :
  contains "shouldValidate" u = false →
  _onFocusOutValidateAttribute getValidator
    (shouldValidate_key (u +:+ "shouldValidate" +:+ w)) s
  = (if truthy (prop (props s)
                  (shouldValidate_key (u +:+ "shouldValidate" +:+ w)))
        || _didValidateAllOnce s
     then validateProperty getValidator (u +:+ w +:+ "shouldValidate")
          ;; mret tt
     else mret tt) s.
Proof.
  intros Hu. unfold _onFocusOutValidateAttribute. rewrite run_get_this.
  unfold shouldValidate_key. rewrite !append_assoc.
  by rewrite (replace_first_occurrence "shouldValidate" u
                (w +:+ "shouldValidate") shouldValidate_border_free Hu).
Qed.

Lemma focus_out_removes_first_occurrence_witness :
  _onFocusOutValidateAttribute Sample.getValidator
    (shouldValidate_key ("x" +:+ "shouldValidate" +:+ "y")) Sample.person
  = (if truthy (prop (props Sample.person)
                  (shouldValidate_key ("x" +:+ "shouldValidate" +:+ "y")))
        || _didValidateAllOnce Sample.person
     then validateProperty Sample.getValidator ("x" +:+ "y" +:+ "shouldValidate")
          ;; mret tt
     else mret tt) Sample.person.
Proof.
  apply (focus_out_removes_first_occurrence Sample.getValidator "x" "y"
           Sample.person).
  reflexivity.
Defined.

(** * Further properties of the control views *)

Section WidgetMore.
Import Widget.
Implicit Types h : heap.









(** X18. On a view with neither a [valueBinding] nor a [checkedBinding],
    once both focus flags are set, the observer writes the property
    [undefinedshouldValidate] on the view itself: [binding && binding._from]
    is [undefined] and the key is built from it all the same. *)
Theorem unbound_view_sets_stray_flag h this view :
  h !! this = Some view →
  truthy (prop view "_didFocusIn") = true →
  truthy (prop view "_didFocusOut") = true →
  view !! "valueBinding" = None →
  view !! "checkedBinding" = None →
  _setupShouldValidate this h
  = Res (inr tt)
        (<[this := <["undefinedshouldValidate" := JBool true]> view]> h) [].
Proof.
  intros Hthis Hin Hout Hvb Hcb.
  unfold _setupShouldValidate. rewrite run_get_this.
  rewrite !Ember_get_key by reflexivity.
  rewrite !(get_key_ref h this view) by done.
  rewrite Hin, Hout. cbn [negb orb]. unfold prop at 1 2.
  rewrite Hvb, Hcb.
  by apply (Ember_set_resolved h (JRef this) [] "undefinedshouldValidate"
              (JBool true) this view).
Qed.



End WidgetMore.


Lemma unbound_view_sets_stray_flag_witness :
  Widget._setupShouldValidate 1 Edge.unbound_form
  = Res (inr tt)
        (<[1 := <["undefinedshouldValidate" := JBool true]>
                  {[ "_didFocusIn" := JBool true;
                     "_didFocusOut" := JBool true ]}]> Edge.unbound_form)
        [].
Proof.
  apply (unbound_view_sets_stray_flag Edge.unbound_form 1
           {[ "_didFocusIn" := JBool true; "_didFocusOut" := JBool true ]});
    reflexivity.
Defined.

